(** * Mistral ETL preprocessing: a shallow embedding in Rocq

    This development models the preprocessing code of the Mistral ETL:
    - [src/etl/preprocess.ts]: the schema-unified CSV pipeline
      ([detectSeparator], [standardizeHeader], [collectUniqueHeaders],
      [normalizeDate], [normalizeTime], [parseNumericField], [preprocessFile]);
    - the utility module with [isValidTime], [combineDateTime],
      [detectDelimiter] and [detectFileFormat];
    - the NDJSON variant of [preprocessFile] (a [Transform] stream writing
      one JSON line per row).

    JavaScript strings are sequences of UTF-16 code units; they are modelled
    as [list Z].  ASCII literals are written with [js "..."]. *)

From Stdlib Require Import ZArith List Bool Ascii String QArith Sorting.Sorted Sorting.Permutation Lia.
Import ListNotations.
Open Scope Z_scope.

(** ** JavaScript strings *)

Definition jsstr := list Z.

(** Lift an ASCII Rocq string literal to a JS string (one code unit per character). *)
Definition js (s : string) : jsstr :=
  map (fun a => Z.of_nat (nat_of_ascii a)) (list_ascii_of_string s).

Fixpoint str_eqb (a b : jsstr) : bool :=
  match a, b with
  | [], [] => true
  | x :: a', y :: b' => (x =? y) && str_eqb a' b'
  | _, _ => false
  end.

Definition mem (x : jsstr) (l : list jsstr) : bool := existsb (str_eqb x) l.

(** [String.prototype.split(c)] with a one-code-unit separator. *)
Fixpoint split (c : Z) (s : jsstr) : list jsstr :=
  match s with
  | [] => [[]]
  | x :: r =>
      if x =? c then [] :: split c r
      else match split c r with
           | p :: ps => (x :: p) :: ps
           | [] => [[x]]
           end
  end.

(** [s.split(c)[0]]: the array returned by [split] is never empty. *)
Definition split0 (c : Z) (s : jsstr) : jsstr := hd [] (split c s).

(** [String.prototype.includes] for one code unit. *)
Definition includes (s : jsstr) (c : Z) : bool := existsb (Z.eqb c) s.

Fixpoint startsWith (s p : jsstr) : bool :=
  match p, s with
  | [], _ => true
  | y :: p', x :: s' => (x =? y) && startsWith s' p'
  | _ :: _, [] => false
  end.

Definition endsWith (s p : jsstr) : bool := startsWith (rev s) (rev p).

(** The code units matched by [\s] and removed by [trim]: ECMAScript
    WhiteSpace and LineTerminator. *)
Definition isWs (c : Z) : bool :=
  ((9 <=? c) && (c <=? 13)) || (c =? 32) || (c =? 160) || (c =? 5760)
  || ((8192 <=? c) && (c <=? 8202)) || (c =? 8232) || (c =? 8233)
  || (c =? 8239) || (c =? 8287) || (c =? 12288) || (c =? 65279).

Fixpoint trimStart (s : jsstr) : jsstr :=
  match s with
  | x :: r => if isWs x then trimStart r else s
  | [] => []
  end.

Definition trimEnd (s : jsstr) : jsstr := rev (trimStart (rev s)).

Definition trim (s : jsstr) : jsstr := trimEnd (trimStart s).

(** [s.padStart(2, "0")]. *)
Definition padStart2 (s : jsstr) : jsstr :=
  match s with
  | [] => [48; 48]
  | [x] => [48; x]
  | _ => s
  end.

(** [String.prototype.toLowerCase] on the code units U+0000..U+00FF
    (ASCII and Latin-1 capitals); other code units are left unchanged here.
    The idempotence lemma for [standardizeHeader] below is proved for any
    lower-casing function that fixes the characters [a-z0-9_], which holds
    of the full Unicode mapping. *)
Definition lowerUnit (c : Z) : Z :=
  if ((65 <=? c) && (c <=? 90)) || ((192 <=? c) && (c <=? 222) && negb (c =? 215))
  then c + 32 else c.

Definition toLowerCase (s : jsstr) : jsstr := map lowerUnit s.

(** Decimal rendering of a non-negative integer. *)
Fixpoint digitsAux (fuel : nat) (n : Z) (acc : jsstr) : jsstr :=
  match fuel with
  | O => acc
  | S f =>
      let acc' := (48 + n mod 10) :: acc in
      if n <? 10 then acc' else digitsAux f (n / 10) acc'
  end.

Definition showZ (n : Z) : jsstr := digitsAux 64 n [].

(** ** HeaderStandardizer: [standardizeHeader] *)

(** [.replace(/\s+/g, "_")]: each maximal run of whitespace becomes one [_]. *)
Fixpoint replaceWsRuns (inRun : bool) (s : jsstr) : jsstr :=
  match s with
  | [] => []
  | x :: r =>
      if isWs x then (if inRun then replaceWsRuns true r else 95 :: replaceWsRuns true r)
      else x :: replaceWsRuns false r
  end.

Definition isHeaderChar (c : Z) : bool :=
  ((97 <=? c) && (c <=? 122)) || ((48 <=? c) && (c <=? 57)) || (c =? 95).

(** [.replace(/[^a-z0-9_]/g, "")]. *)
Definition stripNonHeaderChars (s : jsstr) : jsstr := filter isHeaderChar s.

Definition standardizeHeaderWith (lower : jsstr -> jsstr) (header : jsstr) : jsstr :=
  stripNonHeaderChars (replaceWsRuns false (lower (trim header))).

Definition standardizeHeader (header : jsstr) : jsstr :=
  standardizeHeaderWith toLowerCase header.

(** ** FieldNormalizers of the utility module *)

Definition isDigit (c : Z) : bool := (48 <=? c) && (c <=? 57).

(** [/^([01]\d|2[0-3]):([0-5]\d):([0-5]\d)$/.test(time)]. *)
Definition isValidTime (time : jsstr) : bool :=
  match time with
  | [h1; h2; c1; m1; m2; c2; s1; s2] =>
      ((((h1 =? 48) || (h1 =? 49)) && isDigit h2)
       || ((h1 =? 50) && (48 <=? h2) && (h2 <=? 51)))
      && (c1 =? 58) && (48 <=? m1) && (m1 <=? 53) && isDigit m2
      && (c2 =? 58) && (48 <=? s1) && (s1 <=? 53) && isDigit s2
  | _ => false
  end.

(** A [string | undefined] argument is truthy when defined and non-empty. *)
Definition truthyStr (s : option jsstr) : bool :=
  match s with Some (_ :: _) => true | _ => false end.

(** [combineDateTime(dateString, timeString?)]; [None] is [undefined]. *)
Definition combineDateTime (dateString : jsstr) (timeString : option jsstr) : jsstr :=
  let cleanedDate := trim (split0 84 dateString) in
  let cleanedTime :=
    match timeString with
    | Some t =>
        if truthyStr timeString && isValidTime (trim (split0 46 t))
        then trim (split0 46 t) else js "00:00:00"
    | None => js "00:00:00"
    end in
  cleanedDate ++ js "T" ++ cleanedTime ++ js "-03:00".

(** Whether [combineDateTime] logs its "Invalid or missing time value" warning. *)
Definition combineDateTimeWarns (timeString : option jsstr) : bool :=
  match timeString with
  | Some t => negb (truthyStr timeString && isValidTime (trim (split0 46 t)))
  | None => true
  end.

(** [detectDelimiter(filePath)], on the decoded contents of the file. *)
Definition detectDelimiter (fileContents : jsstr) : Z :=
  let firstLine := split0 10 fileContents in
  if includes firstLine 9 then 9
  else if includes firstLine 59 then 59
  else if includes firstLine 44 then 44
  else 44.

Inductive FileFormat := csv | tsv.

Definition detectFileFormat (fileName : jsstr) : FileFormat :=
  if endsWith fileName (js ".csv") then csv else tsv.

(** [detectSeparator(filePath)] of [preprocess.ts]: by file extension. *)
Definition detectSeparator (filePath : jsstr) : Z :=
  if endsWith filePath (js ".tsv") then 59
  else if endsWith filePath (js ".csv") then 44
  else 44.

(** ** FieldNormalizers of [preprocess.ts] *)

(** [normalizeTime(timeString)]. *)
Definition normalizeTime (timeString : jsstr) : jsstr :=
  match timeString with
  | [] => []
  | _ =>
      match split 58 timeString with
      | p0 :: p1 :: rest =>
          let seconds :=
            match rest with
            | p2 :: _ => match p2 with [] => js "00" | _ => padStart2 p2 end
            | [] => js "00"
            end in
          padStart2 p0 ++ js ":" ++ padStart2 p1 ++ js ":" ++ seconds
      | _ => []
      end
  end.

(** JavaScript numbers as produced by [parseFloat]: [NaN], the two
    infinities, or a finite value.  Finite values are kept as the exact
    decimal value read ([Q]); rounding to the nearest double is not
    modelled. *)
Inductive jsnum := NaN | PosInf | NegInf | Fin (q : Q).

Fixpoint spanDigits (s : jsstr) : jsstr * jsstr :=
  match s with
  | x :: r => if isDigit x then let (d, t) := spanDigits r in (x :: d, t) else ([], s)
  | [] => ([], [])
  end.

Definition digitsValue (ds : jsstr) : Z := fold_left (fun acc d => acc * 10 + (d - 48)) ds 0.

(** The optional ExponentPart of a StrDecimalLiteral: [e]/[E], an optional
    sign, at least one digit; otherwise no exponent is consumed. *)
Definition exponentPart (s : jsstr) : Z :=
  match s with
  | e :: r =>
      if (e =? 101) || (e =? 69) then
        let '(sg, r') := match r with
                         | 43 :: r' => (1, r')
                         | 45 :: r' => (-1, r')
                         | _ => (1, r)
                         end in
        match fst (spanDigits r') with
        | [] => 0
        | ds => sg * digitsValue ds
        end
      else 0
  | [] => 0
  end.

Definition decimalQ (m e : Z) : Q :=
  if 0 <=? e then inject_Z (m * 10 ^ e) else Qmake m (Z.to_pos (10 ^ (- e))).

(** [parseFloat(string)]: the longest prefix of the trimmed input that is a
    StrDecimalLiteral ([+]/[-], then [Infinity] or digits with an optional
    fraction and exponent); [NaN] when there is none. *)
Definition parseFloat (s : jsstr) : jsnum :=
  let s1 := trimStart s in
  let '(sg, s2) := match s1 with
                   | 43 :: r => (1, r)
                   | 45 :: r => (-1, r)
                   | _ => (1, s1)
                   end in
  if startsWith s2 (js "Infinity") then (if sg =? 1 then PosInf else NegInf)
  else
    let '(intDs, r1) := spanDigits s2 in
    let '(fracDs, r2) := match r1 with
                         | 46 :: r => spanDigits r
                         | _ => ([], r1)
                         end in
    match intDs ++ fracDs with
    | [] => NaN
    | ds => Fin (decimalQ (sg * digitsValue ds)
                          (exponentPart r2 - Z.of_nat (List.length fracDs)))
    end.

(** [value.replace(",", ".")]: only the first comma is replaced. *)
Fixpoint replaceFirst (c d : Z) (s : jsstr) : jsstr :=
  match s with
  | [] => []
  | x :: r => if x =? c then d :: r else x :: replaceFirst c d r
  end.

Definition isNaN (n : jsnum) : bool := match n with NaN => true | _ => false end.

(** [parseNumericField(value)]. *)
Definition parseNumericField (value : jsstr) : jsnum :=
  match value with
  | [] => Fin 0
  | _ =>
      let numericValue := replaceFirst 44 46 value in
      let parsed := parseFloat numericValue in
      if isNaN parsed then Fin 0 else parsed
  end.

(** *** [new Date(string)] and date-fns [format(date, "yyyy-MM-dd")]

    Time values are milliseconds since the epoch.  [tz] is the offset of
    the local time zone in minutes east of UTC (a fixed offset: daylight
    saving changes are not modelled).  Two input forms of V8's [Date]
    parser are modelled: the ISO date-only form [YYYY-MM-DD], read as UTC
    midnight, and the numeric [M/D/YYYY] form of the legacy parser, read
    as local midnight.  Other strings are treated as invalid dates here. *)

Definition daysFromCivil (y m d : Z) : Z :=
  let y' := if m <=? 2 then y - 1 else y in
  let era := y' / 400 in
  let yoe := y' - era * 400 in
  let mp := (m + 9) mod 12 in
  let doy := (153 * mp + 2) / 5 + d - 1 in
  let doe := yoe * 365 + yoe / 4 - yoe / 100 + doy in
  era * 146097 + doe - 719468.

(** ECMAScript MakeDay for month 1..12: days beyond the month roll over. *)
Definition makeDay (y m d : Z) : Z := daysFromCivil y m 1 + (d - 1).

Definition civilFromDays (z : Z) : Z * Z * Z :=
  let z' := z + 719468 in
  let era := z' / 146097 in
  let doe := z' - era * 146097 in
  let yoe := (doe - doe / 1460 + doe / 36524 - doe / 146096) / 365 in
  let y := yoe + era * 400 in
  let doy := doe - (365 * yoe + yoe / 4 - yoe / 100) in
  let mp := (5 * doy + 2) / 153 in
  let d := doy - (153 * mp + 2) / 5 + 1 in
  let m := if mp <? 10 then mp + 3 else mp - 9 in
  ((if m <=? 2 then y + 1 else y), m, d).

Definition msPerDay : Z := 86400000.

Definition allDigits (s : jsstr) : bool := forallb isDigit s.

Definition validMonthDay (m d : Z) : bool := (1 <=? m) && (m <=? 12) && (1 <=? d) && (d <=? 31).

(** [new Date(s).getTime()], [None] for an invalid date. *)
Definition jsDateParse (tz : Z) (s : jsstr) : option Z :=
  match s with
  | [y1; y2; y3; y4; 45; m1; m2; 45; d1; d2] =>
      if allDigits [y1; y2; y3; y4; m1; m2; d1; d2]
         && validMonthDay (digitsValue [m1; m2]) (digitsValue [d1; d2])
      then Some (makeDay (digitsValue [y1; y2; y3; y4]) (digitsValue [m1; m2])
                         (digitsValue [d1; d2]) * msPerDay)
      else None
  | _ =>
      match split 47 s with
      | [ms; ds; ys] =>
          if (0 <? List.length ms)%nat && (List.length ms <=? 2)%nat
             && (0 <? List.length ds)%nat && (List.length ds <=? 2)%nat
             && (List.length ys =? 4)%nat && allDigits (ms ++ ds ++ ys)
             && validMonthDay (digitsValue ms) (digitsValue ds)
          then Some (makeDay (digitsValue ys) (digitsValue ms) (digitsValue ds) * msPerDay
                     - tz * 60000)
          else None
      | _ => None
      end
  end.

Definition pad (n : nat) (s : jsstr) : jsstr := repeat 48 (n - List.length s) ++ s.

(** date-fns [format(date, "yyyy-MM-dd")] in the local time zone; the
    [yyyy] token prints the year of era (1 - year for years <= 0). *)
Definition formatYMD (tz t : Z) : jsstr :=
  let '(y, m, d) := civilFromDays ((t + tz * 60000) / msPerDay) in
  let yoe := if 0 <? y then y else 1 - y in
  pad 4 (showZ yoe) ++ js "-" ++ pad 2 (showZ m) ++ js "-" ++ pad 2 (showZ d).

(** [normalizeDate(dateString)]. *)
Definition normalizeDate (tz : Z) (dateString : jsstr) : jsstr :=
  match dateString with
  | [] => []
  | _ =>
      match jsDateParse tz dateString with
      | None => []
      | Some t => formatYMD tz t
      end
  end.

(** ** JavaScript objects

    A plain object created by [{}] is its list of own properties in
    insertion order.  Reads fall back to [Object.prototype], whose
    properties with names in [[a-z0-9_]*] are [constructor] (the [Object]
    function) and the [__proto__] accessor (returning [Object.prototype]).
    Assigning to [__proto__] a string, or [Object.prototype] on an object
    whose prototype it already is, leaves the object unchanged. *)

Inductive JVal := JStr (s : jsstr) | JNum (n : jsnum) | JObjectPrototype | JObjectCtor.

Definition obj := list (jsstr * JVal).

Fixpoint ownGet (o : obj) (k : jsstr) : option JVal :=
  match o with
  | [] => None
  | (k', v) :: r => if str_eqb k k' then Some v else ownGet r k
  end.

Definition objGet (o : obj) (k : jsstr) : option JVal :=
  match ownGet o k with
  | Some v => Some v
  | None =>
      if str_eqb k (js "constructor") then Some JObjectCtor
      else if str_eqb k (js "__proto__") then Some JObjectPrototype
      else None
  end.

Fixpoint ownSet (o : obj) (k : jsstr) (v : JVal) : obj :=
  match o with
  | [] => [(k, v)]
  | (k', v') :: r => if str_eqb k k' then (k', v) :: r else (k', v') :: ownSet r k v
  end.

Definition objSet (o : obj) (k : jsstr) (v : JVal) : obj :=
  if str_eqb k (js "__proto__") then o else ownSet o k v.

Definition ownKeys (o : obj) : list jsstr := map fst o.

(** JavaScript truthiness of a property read ([None] is [undefined]). *)
Definition truthy (v : option JVal) : bool :=
  match v with
  | None => false
  | Some (JStr s) => match s with [] => false | _ => true end
  | Some (JNum n) => match n with NaN => false | Fin q => negb (Qeq_bool q 0) | _ => true end
  | Some _ => true
  end.

(** [v || ""]. *)
Definition orEmpty (v : option JVal) : JVal :=
  match v with
  | Some v' => if truthy v then v' else JStr []
  | None => JStr []
  end.

(** ** csv-parser

    Lines end at [\n], a trailing [\r] is dropped, and text after the last
    newline forms a last line when it is not empty.  The first line is the
    header line; its cells go through [mapHeaders].  A cell is the text
    between separators (fields with quote characters are not modelled).
    A row object maps the i-th mapped header to the i-th cell; cells beyond
    the headers are stored under [_i]. *)

Record InputFile := { fileName : jsstr; content : jsstr }.

Definition stripCR (l : jsstr) : jsstr :=
  match rev l with 13 :: r => rev r | _ => l end.

Definition csvLines (text : jsstr) : list jsstr :=
  let ls := split 10 text in
  map stripCR (match last ls [] with [] => removelast ls | _ => ls end).

Definition csvCells (sep : Z) (line : jsstr) : list jsstr :=
  match line with [] => [] | _ => split sep line end.

(** The [headers] event: [None] when the input has no line at all. *)
Definition csvHeader (sep : Z) (text : jsstr) : option (list jsstr) :=
  match csvLines text with
  | [] => None
  | l :: _ => Some (csvCells sep l)
  end.

Definition csvDataLines (sep : Z) (text : jsstr) : list (list jsstr) :=
  match csvLines text with
  | [] => []
  | _ :: rs => map (csvCells sep) rs
  end.

Fixpoint csvRowObj (hs cells : list jsstr) (i : nat) (o : obj) : obj :=
  match cells with
  | [] => o
  | c :: cs =>
      match hs with
      | h :: hs' => csvRowObj hs' cs (S i) (objSet o h (JStr c))
      | [] => csvRowObj [] cs (S i) (objSet o (js "_" ++ showZ (Z.of_nat i)) (JStr c))
      end
  end.

(** The row objects emitted by [csv({ separator, mapHeaders })]. *)
Definition csvRows (sep : Z) (mapHeader : jsstr -> jsstr) (text : jsstr) : list obj :=
  match csvHeader sep text with
  | None => []
  | Some hs => map (fun cells => csvRowObj (map mapHeader hs) cells 0 []) (csvDataLines sep text)
  end.

(** ** SchemaUnifier: [collectUniqueHeaders] *)

(** [Set.prototype.add]: a new value goes to the end of the insertion order. *)
Definition setAdd (s : list jsstr) (h : jsstr) : list jsstr :=
  if mem h s then s else s ++ [h].

(** Code-unit order used by [Array.prototype.sort] without a comparator. *)
Fixpoint strLtb (a b : jsstr) : bool :=
  match a, b with
  | _, [] => false
  | [], _ :: _ => true
  | x :: a', y :: b' => (x <? y) || ((x =? y) && strLtb a' b')
  end.

Fixpoint insertSorted (h : jsstr) (l : list jsstr) : list jsstr :=
  match l with
  | [] => [h]
  | x :: r => if strLtb x h then x :: insertSorted h r else h :: l
  end.

Definition sortStrings (l : list jsstr) : list jsstr := fold_right insertSorted [] l.

(** The header line of one file as read during header collection: the
    [headers] event of [csv({ separator: detectSeparator(filePath),
    mapHeaders: standardizeHeader })]. *)
Definition fileHeaders (f : InputFile) : option (list jsstr) :=
  option_map (map standardizeHeader) (csvHeader (detectSeparator (fileName f)) (content f)).

(** The loop over files.  A file without any line never emits [headers],
    nor [error]: the awaited promise never settles, and
    [collectUniqueHeaders] never returns ([None]). *)
Fixpoint collectLoop (allHeaders : list jsstr) (files : list InputFile) : option (list jsstr) :=
  match files with
  | [] => Some allHeaders
  | f :: fs =>
      match fileHeaders f with
      | None => None
      | Some hs => collectLoop (fold_left setAdd hs allHeaders) fs
      end
  end.

Definition collectUniqueHeaders (files : list InputFile) : option (list jsstr) :=
  option_map sortStrings (collectLoop [] files).

(** ** RowTransformer of the schema-unified mode *)

Definition numericFieldNames : list jsstr :=
  map js ["auto"; "moto"; "ciclom"; "ciclista"; "pedestre"; "onibus"; "caminhao";
          "viatura"; "outros"; "vitimas"; "vitimasfatais"]%string.

Definition isNumericField (header : jsstr) : bool :=
  mem header numericFieldNames || startsWith header (js "num_") || endsWith header (js "_count").

(** [standardizedRow[field] = parseNumericField(standardizedRow[field])];
    [None] is the [TypeError] of calling [replace] on a truthy non-string. *)
Definition numericValue (v : option JVal) : option JVal :=
  match v with
  | None => Some (JNum (Fin 0))
  | Some (JStr s) => Some (JNum (parseNumericField s))
  | Some (JNum n) => if truthy v then None else Some (JNum (Fin 0))
  | Some _ => None
  end.

Fixpoint applyNumeric (fields : list jsstr) (o : obj) : option obj :=
  match fields with
  | [] => Some o
  | f :: fs =>
      match numericValue (objGet o f) with
      | None => None
      | Some v => applyNumeric fs (objSet o f v)
      end
  end.

(** [if (o[key]) { o[key] = f(o[key]); }].  The values read at [data] and
    [hora] are always strings here (only [constructor] and [__proto__] read
    non-strings). *)
Definition updateIfTruthy (o : obj) (key : jsstr) (f : jsstr -> jsstr) : obj :=
  match objGet o key with
  | Some (JStr ((_ :: _) as s)) => objSet o key (JStr (f s))
  | _ => o
  end.

(** The body of the first async generator of [preprocessFile], for one row. *)
Definition preprocessRow (tz : Z) (allHeaders : list jsstr) (row : obj) : option obj :=
  let standardizedRow :=
    fold_left (fun o h => objSet o h (orEmpty (objGet row h))) allHeaders [] in
  let standardizedRow := updateIfTruthy standardizedRow (js "data") (normalizeDate tz) in
  let standardizedRow := updateIfTruthy standardizedRow (js "hora") normalizeTime in
  applyNumeric (filter isNumericField allHeaders) standardizedRow.

(** The records yielded for one file; the pipeline stops at the first row
    whose transformation throws (the boolean: the file failed). *)
Fixpoint preprocessRows (tz : Z) (allHeaders : list jsstr) (rows : list obj) : list obj * bool :=
  match rows with
  | [] => ([], false)
  | row :: rs =>
      match preprocessRow tz allHeaders row with
      | None => ([], true)
      | Some r => let '(out, failed) := preprocessRows tz allHeaders rs in (r :: out, failed)
      end
  end.

(** [preprocessFile(fileName, allHeaders)]: the records written for one file. *)
Definition preprocessFile (tz : Z) (allHeaders : list jsstr) (f : InputFile) : list obj * bool :=
  preprocessRows tz allHeaders
    (csvRows (detectSeparator (fileName f)) standardizeHeader (content f)).

(** ** NDJSON variant of [preprocessFile] *)

(** *** [JSON.stringify] on strings and on objects with string values *)

Definition hexDigit (n : Z) : Z := if n <? 10 then 48 + n else 87 + n.

Definition hex4 (c : Z) : jsstr :=
  [hexDigit (c / 4096 mod 16); hexDigit (c / 256 mod 16); hexDigit (c / 16 mod 16); hexDigit (c mod 16)].

Definition isLeadSurrogate (c : Z) : bool := (55296 <=? c) && (c <=? 56319).
Definition isTrailSurrogate (c : Z) : bool := (56320 <=? c) && (c <=? 57343).

(** QuoteJSONString without the enclosing quotes. *)
Fixpoint quoteBody (s : jsstr) : jsstr :=
  match s with
  | [] => []
  | c :: r =>
      if c =? 34 then [92; 34] ++ quoteBody r
      else if c =? 92 then [92; 92] ++ quoteBody r
      else if c =? 8 then [92; 98] ++ quoteBody r
      else if c =? 9 then [92; 116] ++ quoteBody r
      else if c =? 10 then [92; 110] ++ quoteBody r
      else if c =? 12 then [92; 102] ++ quoteBody r
      else if c =? 13 then [92; 114] ++ quoteBody r
      else if c <? 32 then [92; 117] ++ hex4 c ++ quoteBody r
      else if isLeadSurrogate c then
        match r with
        | d :: r' => if isTrailSurrogate d then c :: d :: quoteBody r'
                     else [92; 117] ++ hex4 c ++ quoteBody r
        | [] => [92; 117] ++ hex4 c
        end
      else if isTrailSurrogate c then [92; 117] ++ hex4 c ++ quoteBody r
      else c :: quoteBody r
  end.

Definition jsonString (s : jsstr) : jsstr := [34] ++ quoteBody s ++ [34].

Fixpoint jsonMembers (es : list (jsstr * jsstr)) : jsstr :=
  match es with
  | [] => []
  | [(k, v)] => jsonString k ++ js ":" ++ jsonString v
  | (k, v) :: r => jsonString k ++ js ":" ++ jsonString v ++ js "," ++ jsonMembers r
  end.

Definition jsonObject (es : list (jsstr * jsstr)) : jsstr := js "{" ++ jsonMembers es ++ js "}".

(** *** Rows and records *)

(** A fast-csv row: its own properties (raw header, cell) in enumeration order. *)
Definition Row := list (jsstr * jsstr).

Fixpoint rowGet (row : Row) (k : jsstr) : option jsstr :=
  match row with
  | [] => None
  | (k', v) :: r => if str_eqb k k' then Some v else rowGet r k
  end.

(** [a || b] on [string | undefined] operands. *)
Definition orStr (a : option jsstr) (b : jsstr) : jsstr :=
  match a with Some ((_ :: _) as s) => s | _ => b end.

Record NdRecord := { tipo : jsstr; situacao : jsstr; datahora : jsstr; meta : jsstr }.

(** [JSON.stringify(transformedRow) + "\n"]. *)
Definition recordLine (r : NdRecord) : jsstr :=
  jsonObject [(js "tipo", tipo r); (js "situacao", situacao r);
              (js "datahora", datahora r); (js "meta", meta r)] ++ [10].

Inductive LogEntry :=
| TipoMissing (line : nat)
| TimeFallback (timeString : option jsstr)
| RowError (file : jsstr) (line : nat) (message : jsstr) (rowJson : jsstr).

Definition consumedKeys : list jsstr :=
  map js ["tipo"; "natureza_acidente"; "natureza"; "situacao"; "data"; "hora"]%string.

(** [Object.fromEntries(Object.entries(row).filter(([key]) => !consumed.includes(key)))]. *)
Definition metaEntries (row : Row) : Row :=
  filter (fun kv => negb (mem (fst kv) consumedKeys)) row.

(** The body of the [try] block of [transform], for the row counted as
    [lineNumber]: the warnings it logs, and the record, or the message of
    the exception it throws.  No step of it throws on a fast-csv row. *)
Definition ndjsonBuild (lineNumber : nat) (row : Row) : list LogEntry * (jsstr + NdRecord) :=
  let tipo := orStr (rowGet row (js "natureza_acidente"))
                (orStr (rowGet row (js "natureza")) (orStr (rowGet row (js "tipo")) [])) in
  let logTipo := match tipo with [] => [TipoMissing lineNumber] | _ => [] end in
  let situacao := orStr (rowGet row (js "situacao")) [] in
  let data := orStr (rowGet row (js "data")) [] in
  let hora := orStr (rowGet row (js "hora")) [] in
  let datahora := combineDateTime data (Some hora) in
  let logTime := if combineDateTimeWarns (Some hora) then [TimeFallback (Some hora)] else [] in
  let meta := jsonObject (metaEntries row) in
  (logTipo ++ logTime, inr {| tipo := tipo; situacao := situacao; datahora := datahora; meta := meta |}).

(** *** The [Transform] stream

    [transform] increments [lineNumber], runs the row builder, writes the
    JSON line, and calls [callback()]; an exception is caught, logged with
    the file name, [lineNumber], its message and [JSON.stringify(row)],
    and [callback()] is called without an error. *)
Section TransformStream.

Variable build : nat -> Row -> list LogEntry * (jsstr + NdRecord).
Variable file : jsstr.

Fixpoint transformLoop (lineNumber : nat) (rows : list Row) : list jsstr * list LogEntry :=
  match rows with
  | [] => ([], [])
  | row :: rs =>
      let n := S lineNumber in
      let '(logs, res) := build n row in
      let '(out, log) := transformLoop n rs in
      match res with
      | inr r => (recordLine r :: out, logs ++ log)
      | inl msg => (out, logs ++ RowError file n msg (jsonObject row) :: log)
      end
  end.

End TransformStream.

(** The lines written and the log of the NDJSON [preprocessFile]. *)
Definition ndjsonFile (file : jsstr) (rows : list Row) : list jsstr * list LogEntry :=
  transformLoop ndjsonBuild file 0 rows.

(** ** Output file names and file selection *)

(** [String.prototype.lastIndexOf] for one code unit. *)
Fixpoint lastIndexOfFrom (c : Z) (i : nat) (s : jsstr) (acc : option nat) : option nat :=
  match s with
  | [] => acc
  | x :: r => lastIndexOfFrom c (S i) r (if x =? c then Some i else acc)
  end.

Definition lastIndexOf (c : Z) (s : jsstr) : option nat := lastIndexOfFrom c 0 s None.

(** [path.parse(fileName).name] (POSIX) for a name without [/], such as an
    entry of [readdirSync]: the extension starts at the last [.]; there is
    none when the name has no [.], when its last [.] is its first code
    unit, and for [..]. *)
Definition pathParseName (base : jsstr) : jsstr :=
  match lastIndexOf 46 base with
  | None | Some O => base
  | Some i => if str_eqb base (js "..") then base else firstn i base
  end.

(** [path.parse(fileName).name + "_processed.csv"] in [preprocessFile]. *)
Definition outputFileName (fileName : jsstr) : jsstr :=
  pathParseName fileName ++ js "_processed.csv".

(** The filter of [preprocessAllFiles] on the entries of the input directory. *)
Definition preprocessSelects (file : jsstr) : bool :=
  startsWith file (js "sinistros") &&
  (endsWith file (js ".csv") || endsWith file (js ".tsv") || endsWith file (js ".txt")).

(** NDJSON variant: [fileName.replace(/\.(csv|tsv)$/, "_processed.ndjson")]. *)
Definition ndjsonOutputFileName (fileName : jsstr) : jsstr :=
  if endsWith fileName (js ".csv") || endsWith fileName (js ".tsv")
  then firstn (List.length fileName - 4)%nat fileName ++ js "_processed.ndjson"
  else fileName.

(** ** [src/etl/index.ts] *)

Module EtlIndex.

(** [detectSeparator] of [index.ts]. *)
Definition detectSeparator (filePath : jsstr) : Z :=
  if endsWith filePath (js ".csv") then 44 else 59.

(** The filter of [main] on the entries of the data directory. *)
Definition selects (file : jsstr) : bool :=
  startsWith file (js "sinistros") && (endsWith file (js ".csv") || endsWith file (js ".tsv")).






End EtlIndex.

(** ** The geocoding test *)

(** *** [JSON.parse] on flat objects with string values

    The texts read back by the geocoding test are objects written by
    [JSON.stringify] whose members are all strings.  [jsonParseObject]
    follows the JSON grammar on those texts (whitespace between tokens
    included) and returns their members in order; [None] stands for a
    [SyntaxError], and also for the texts whose values are not all strings,
    which are not modelled here. *)

Definition isJsonWs (c : Z) : bool := (c =? 32) || (c =? 9) || (c =? 10) || (c =? 13).

Fixpoint skipWs (s : jsstr) : jsstr :=
  match s with
  | x :: r => if isJsonWs x then skipWs r else s
  | [] => []
  end.

Definition hexValue (c : Z) : option Z :=
  if (48 <=? c) && (c <=? 57) then Some (c - 48)
  else if (97 <=? c) && (c <=? 102) then Some (c - 87)
  else if (65 <=? c) && (c <=? 70) then Some (c - 55)
  else None.

(** The code unit denoted by a one-character escape [\x]. *)
Definition escapeChar (e : Z) : option Z :=
  if e =? 34 then Some 34 else if e =? 92 then Some 92 else if e =? 47 then Some 47
  else if e =? 98 then Some 8 else if e =? 102 then Some 12 else if e =? 110 then Some 10
  else if e =? 114 then Some 13 else if e =? 116 then Some 9 else None.

(** The rest of a string literal after its opening quote: the string it
    denotes and the text after the closing quote. *)
Fixpoint jsonStrBody (s : jsstr) : option (jsstr * jsstr) :=
  match s with
  | [] => None
  | c :: r =>
      if c =? 34 then Some ([], r)
      else if c =? 92 then
        match r with
        | [] => None
        | e :: r' =>
            match escapeChar e with
            | Some x => option_map (fun '(d, t) => (x :: d, t)) (jsonStrBody r')
            | None =>
                if e =? 117 then
                  match r' with
                  | h1 :: h2 :: h3 :: h4 :: r'' =>
                      match hexValue h1, hexValue h2, hexValue h3, hexValue h4 with
                      | Some a, Some b, Some c', Some d =>
                          option_map (fun '(x, t) => ((a * 4096 + b * 256 + c' * 16 + d) :: x, t))
                                     (jsonStrBody r'')
                      | _, _, _, _ => None
                      end
                  | _ => None
                  end
                else None
            end
        end
      else if c <? 32 then None
      else option_map (fun '(d, t) => (c :: d, t)) (jsonStrBody r)
  end.

(** A string token after optional whitespace. *)
Definition jsonStringTok (s : jsstr) : option (jsstr * jsstr) :=
  match skipWs s with
  | 34 :: r => jsonStrBody r
  | _ => None
  end.

(** A member [string : string]. *)
Definition jsonMember (s : jsstr) : option ((jsstr * jsstr) * jsstr) :=
  match jsonStringTok s with
  | Some (k, r) =>
      match skipWs r with
      | 58 :: r' =>
          match jsonStringTok r' with
          | Some (v, r'') => Some ((k, v), r'')
          | None => None
          end
      | _ => None
      end
  | None => None
  end.

(** After a member: [}] or [,] and the next member; [fuel] bounds the
    number of members (the length of the text suffices). *)
Fixpoint jsonMoreMembers (fuel : nat) (s : jsstr) : option (list (jsstr * jsstr) * jsstr) :=
  match fuel with
  | O => None
  | S f =>
      match skipWs s with
      | 125 :: r => Some ([], r)
      | 44 :: r =>
          match jsonMember r with
          | Some (kv, r') => option_map (fun '(es, t) => (kv :: es, t)) (jsonMoreMembers f r')
          | None => None
          end
      | _ => None
      end
  end.

Definition jsonParseObject (text : jsstr) : option (list (jsstr * jsstr)) :=
  match skipWs text with
  | 123 :: r =>
      let res := match skipWs r with
                 | 125 :: r' => Some ([], r')
                 | _ =>
                     match jsonMember r with
                     | Some (kv, r') =>
                         option_map (fun '(es, t) => (kv :: es, t))
                                    (jsonMoreMembers (List.length text) r')
                     | None => None
                     end
                 end in
      match res with
      | Some (es, t) => match skipWs t with [] => Some es | _ => None end
      | None => None
      end
  | _ => None
  end.

(** A property of the parsed object: the last member with that key wins. *)
Definition jsonLookup (es : list (jsstr * jsstr)) (k : jsstr) : option jsstr := rowGet (rev es) k.

(** *** [extractAddress] *)

(** [`${v}`] for [v : string | undefined]. *)
Definition tmplStr (v : option jsstr) : jsstr :=
  match v with Some s => s | None => js "undefined" end.

(** [a || b] on [string | undefined] operands, as a value. *)
Definition orOpt (a b : option jsstr) : option jsstr :=
  match a with Some (_ :: _) => a | _ => b end.

Definition extractAddress (meta : list (jsstr * jsstr)) : jsstr :=
  let endereco := jsonLookup meta (js "endereco") in
  let numero := jsonLookup meta (js "numero") in
  let bairro := jsonLookup meta (js "bairro") in
  let complemento := jsonLookup meta (js "complemento") in
  let endereco_cruzamento := jsonLookup meta (js "endereco_cruzamento") in
  let bairro_cruzamento := jsonLookup meta (js "bairro_cruzamento") in
  if truthyStr endereco && truthyStr numero then
    tmplStr endereco ++ js ", " ++ tmplStr numero ++ js ", " ++ tmplStr bairro
  else if truthyStr endereco && truthyStr complemento then
    tmplStr endereco ++ js ", " ++ tmplStr complemento ++ js ", " ++ tmplStr bairro
  else if truthyStr endereco && truthyStr endereco_cruzamento then
    tmplStr endereco ++ js " com " ++ tmplStr endereco_cruzamento ++ js ", "
      ++ tmplStr (orOpt bairro_cruzamento bairro)
  else trim (orStr endereco [] ++ js ", " ++ orStr bairro []).

(** The text of one member of [JSON.stringify] on an object, and the
    text of the members after the first one. *)
Definition memberText (kv : jsstr * jsstr) : jsstr :=
  let '(k, v) := kv in jsonString k ++ js ":" ++ jsonString v.

Definition moreMembersText (es : list (jsstr * jsstr)) : jsstr :=
  flat_map (fun kv => js "," ++ memberText kv) es.

(** * Specification helpers and test inputs *)


(** The extensions of the files picked by [preprocessAllFiles]. *)
Definition inputExtensions : list jsstr := [js ".csv"; js ".tsv"; js ".txt"].

(** Code units are non-negative. *)
Definition nonneg (s : jsstr) : Prop := Forall (fun c => 0 <= c) s.

Definition entriesNonneg (es : list (jsstr * jsstr)) : Prop :=
  Forall (fun kv => nonneg (fst kv) /\ nonneg (snd kv)) es.

Definition headerWord (s : jsstr) : Prop := Forall (fun c => isHeaderChar c = true) s.

(** "The text before any [c]": the longest prefix without [c]. *)
Fixpoint textBefore (c : Z) (s : jsstr) : jsstr :=
  match s with
  | [] => []
  | x :: r => if x =? c then [] else x :: textBefore c r
  end.


(** The lines written for [rows] numbered from [S k]: one per row whose
    builder returns a record, in order. *)
Definition writtenLines (build : nat -> Row -> list LogEntry * (jsstr + NdRecord))
    (k : nat) (rows : list Row) : list jsstr :=
  flat_map (fun '(i, row) => match snd (build i row) with
                             | inr r => [recordLine r]
                             | inl _ => []
                             end)
           (combine (seq (S k) (List.length rows)) rows).

(** The separator named by the file extension: [;] for [.tsv], [,] otherwise. *)
Definition extensionSeparator (name : jsstr) : Z :=
  if endsWith name (js ".tsv") then 59 else 44.

Definition txtFile : InputFile :=
  {| fileName := js "sinistros.txt";
     content := js "data;situacao" ++ [10] ++ js "2024-03-02;Resolvido" ++ [10] |}.

(** A row of a crash file with a crossing street. *)
Definition crossingRow : Row :=
  [(js "natureza_acidente", js "Atropelamento"); (js "data", js "2024-03-02");
   (js "hora", js "18:30:00"); (js "endereco", js "Av. Norte");
   (js "endereco_cruzamento", js "Rua do Lima"); (js "bairro", js "Santo Amaro")].

Definition colisao : jsstr := js "Colis" ++ [227] ++ js "o".

Definition scenarioA (name : jsstr) : InputFile :=
  {| fileName := name;
     content := js "Data,Hora,Tipo" ++ [10] ++ js "01/03/2024,14:5," ++ colisao ++ [10] |}.

Definition scenarioB (name : jsstr) : InputFile :=
  {| fileName := name;
     content := js "data;situacao" ++ [10] ++ js "2024-03-02;Resolvido" ++ [10] |}.

Definition scenarioSchema : list jsstr := map js ["data"; "hora"; "situacao"; "tipo"]%string.

Definition strLt (a b : jsstr) : Prop := strLtb a b = true.

(** The raw header labels of a file, as split by the pipeline. *)
Definition rawHeaderLabels (f : InputFile) : list jsstr :=
  match csvHeader (detectSeparator (fileName f)) (content f) with
  | Some hs => hs
  | None => []
  end.

(** Own properties whose values are all strings, as in a csv-parser row. *)
Definition strValues (o : obj) : Prop := forall k v, ownGet o k = Some v -> exists s, v = JStr s.

Definition fileA1 : InputFile :=
  {| fileName := js "sinistros_1.csv"; content := js "vitimas" ++ [10] ++ js "3" ++ [10] |}.

Definition fileB1 : InputFile :=
  {| fileName := js "sinistros_2.csv"; content := js "data" ++ [10] ++ js "2024-03-02" ++ [10] |}.

(** * Properties *)

Lemma str_eqb_eq : forall a b, str_eqb a b = true <-> a = b.
Proof.
  induction a as [|x a IH]; destruct b as [|y b]; simpl; try (split; congruence).
  rewrite andb_true_iff, Z.eqb_eq, IH. split.
  - intros [-> ->]; reflexivity.
  - intros H; inversion H; auto.
Qed.

Lemma mem_In : forall x l, mem x l = true <-> In x l.
Proof.
  intros x l; unfold mem; rewrite existsb_exists. split.
  - intros [y [Hy Heq]]. apply str_eqb_eq in Heq. subst; auto.
  - intros H. exists x. split; [auto | apply str_eqb_eq; reflexivity].
Qed.


(** Turn boolean comparisons on [Z] into arithmetic facts. *)
Ltac zbool :=
  repeat (rewrite ?orb_true_iff, ?andb_true_iff, ?Z.leb_le, ?Z.eqb_eq, ?Z.ltb_lt,
            ?orb_false_iff, ?andb_false_iff, ?Z.leb_gt, ?Z.eqb_neq, ?Z.ltb_ge in *).

(** ** Header characters *)

Lemma headerChar_not_ws : forall c, isHeaderChar c = true -> isWs c = false.
Proof.
  intros c H. apply not_true_is_false. intros W.
  unfold isHeaderChar, isWs in *. zbool. lia.
Qed.

Lemma headerChar_lower : forall c, isHeaderChar c = true -> lowerUnit c = c.
Proof.
  intros c H. unfold lowerUnit.
  destruct (((65 <=? c) && (c <=? 90)) || ((192 <=? c) && (c <=? 222) && negb (c =? 215))) eqn:E;
    [|reflexivity].
  unfold isHeaderChar in H. exfalso.
  zbool. lia.
Qed.

Lemma strip_headerWord : forall s, headerWord (stripNonHeaderChars s).
Proof.
  intros s. unfold headerWord, stripNonHeaderChars. apply Forall_forall.
  intros x Hx. apply filter_In in Hx. tauto.
Qed.

Lemma trimStart_headerWord : forall s, headerWord s -> trimStart s = s.
Proof.
  intros [|c s] H; [reflexivity|]. simpl. inversion H; subst.
  rewrite headerChar_not_ws by assumption. reflexivity.
Qed.

Lemma trim_headerWord : forall s, headerWord s -> trim s = s.
Proof.
  intros s H. unfold trim, trimEnd. rewrite (trimStart_headerWord s H).
  rewrite trimStart_headerWord.
  - apply rev_involutive.
  - unfold headerWord in *. rewrite Forall_forall in *. intros x Hx.
    apply H, in_rev, Hx.
Qed.

Lemma replaceWsRuns_headerWord : forall b s, headerWord s -> replaceWsRuns b s = s.
Proof.
  intros b s H. revert b. induction H as [|c s Hc Hs IH]; intros b; [reflexivity|].
  simpl. rewrite headerChar_not_ws by assumption. rewrite IH. reflexivity.
Qed.

Lemma strip_id_headerWord : forall s, headerWord s -> stripNonHeaderChars s = s.
Proof.
  intros s H. induction H as [|c s Hc Hs IH]; [reflexivity|].
  unfold stripNonHeaderChars in *. simpl. rewrite Hc, IH. reflexivity.
Qed.

(** Idempotence holds for every lower-casing function that leaves words
    over [[a-z0-9_]] unchanged, as [String.prototype.toLowerCase] does. *)
Lemma standardizeHeaderWith_idempotent :
  forall lower, (forall s, headerWord s -> lower s = s) ->
  forall s, standardizeHeaderWith lower (standardizeHeaderWith lower s) = standardizeHeaderWith lower s.
Proof.
  intros lower Hl s.
  pose proof (strip_headerWord (replaceWsRuns false (lower (trim s)))) as Hw.
  unfold standardizeHeaderWith at 1.
  fold (standardizeHeaderWith lower s) in *.
  unfold standardizeHeaderWith in Hw |- *.
  set (w := stripNonHeaderChars (replaceWsRuns false (lower (trim s)))) in *.
  rewrite trim_headerWord, Hl, replaceWsRuns_headerWord, strip_id_headerWord by assumption.
  reflexivity.
Qed.

Lemma toLowerCase_headerWord : forall s, headerWord s -> toLowerCase s = s.
Proof.
  intros s H. induction H as [|c s Hc Hs IH]; [reflexivity|].
  unfold toLowerCase in *. simpl. rewrite headerChar_lower, IH by assumption. reflexivity.
Qed.

(** ** Claim C7: [standardizeHeader] is the composition trim, lower-case,
    whitespace runs to one underscore, removal of characters outside
    [[a-z0-9_]]; it maps the empty string to the empty string, its result
    only has characters in [[a-z0-9_]], and it is idempotent. *)
Theorem standardizeHeader_idempotent :
  (forall s, standardizeHeader s
             = stripNonHeaderChars (replaceWsRuns false (toLowerCase (trim s)))) /\
  standardizeHeader [] = [] /\
  (forall s, headerWord (standardizeHeader s)) /\
  (forall s, standardizeHeader (standardizeHeader s) = standardizeHeader s).
Proof.
  split; [reflexivity|]. split; [reflexivity|]. split.
  - intros s. apply strip_headerWord.
  - intros s. apply standardizeHeaderWith_idempotent, toLowerCase_headerWord.
Qed.

(** ** Text before a code unit *)

Lemma split_not_nil : forall c s, split c s <> [].
Proof.
  intros c [|x r]; simpl; [discriminate|].
  destruct (x =? c); [discriminate|]. destruct (split c r); discriminate.
Qed.

Lemma split0_textBefore : forall c s, split0 c s = textBefore c s.
Proof.
  intros c s. unfold split0. induction s as [|x r IH]; [reflexivity|].
  simpl. destruct (x =? c); [reflexivity|].
  destruct (split c r) as [|p ps] eqn:E; simpl in *.
  - exfalso. exact (split_not_nil c r E).
  - rewrite IH. reflexivity.
Qed.

(** ** Claim C4: [combineDateTime dateText timeText] is
    [{date}T{time}-03:00] where [date] is the trimmed text of [dateText]
    before any [T], and [time] is the trimmed text of [timeText] before any
    [.] when it passes [isValidTime] and ["00:00:00"] otherwise (also when
    [timeText] is absent); [isValidTime] accepts exactly the strings
    [HH:mm:ss] with two-digit hour 00-23 and minute and second 00-59. *)
Theorem combineDateTime_format :
  (forall dateText timeText,
      combineDateTime dateText timeText
      = trim (textBefore 84 dateText) ++ js "T"
        ++ match timeText with
           | Some t => if isValidTime (trim (textBefore 46 t)) then trim (textBefore 46 t)
                       else js "00:00:00"
           | None => js "00:00:00"
           end
        ++ js "-03:00") /\
  (forall t, isValidTime t = true <->
     exists h m s, 0 <= h <= 23 /\ 0 <= m <= 59 /\ 0 <= s <= 59 /\
       t = [48 + h / 10; 48 + h mod 10; 58; 48 + m / 10; 48 + m mod 10;
            58; 48 + s / 10; 48 + s mod 10]) /\
  combineDateTime (js "2024-03-01") (Some (js "14:30:00")) = js "2024-03-01T14:30:00-03:00" /\
  combineDateTime (js "2024-03-01T10:00:00Z") (Some (js "bad-time"))
    = js "2024-03-01T00:00:00-03:00".
Proof.
  split; [|split; [|split; vm_compute; reflexivity]].
  - intros d t. unfold combineDateTime.
    destruct t as [[|x r]|]; rewrite ?split0_textBefore; reflexivity.
  - intros t. split.
    + intros H.
      destruct t as [|h1 [|h2 [|c1 [|m1 [|m2 [|c2 [|s1 [|s2 [|z r]]]]]]]]];
        try discriminate.
      unfold isValidTime, isDigit in H. zbool.
      exists ((h1 - 48) * 10 + (h2 - 48)), ((m1 - 48) * 10 + (m2 - 48)),
             ((s1 - 48) * 10 + (s2 - 48)).
      repeat split; try lia.
      repeat f_equal; Z.div_mod_to_equations; lia.
    + intros (h & m & s & Hh & Hm & Hs & ->).
      unfold isValidTime, isDigit. zbool.
      Z.div_mod_to_equations. lia.
Qed.

(** ** Claim C5: [detectDelimiter] depends only on the first line of the
    file (the text before the first newline): it returns tab if the line
    has a tab, else [;] if it has one, else [,]; a line with none of them,
    in particular an empty file, gives [,].  A first line [a\tb;c] gives tab. *)
Theorem detectDelimiter_first_line :
  (forall c1 c2, textBefore 10 c1 = textBefore 10 c2 -> detectDelimiter c1 = detectDelimiter c2) /\
  (forall c, detectDelimiter c =
             let l := textBefore 10 c in
             if in_dec Z.eq_dec 9 l then 9
             else if in_dec Z.eq_dec 59 l then 59
             else 44) /\
  detectDelimiter [97; 9; 98; 59; 99] = 9 /\
  detectDelimiter [] = 44.
Proof.
  assert (Hinc : forall l c, includes l c = if in_dec Z.eq_dec c l then true else false).
  { intros l c. unfold includes. destruct (in_dec Z.eq_dec c l) as [Hi|Hi].
    - apply existsb_exists. exists c. split; [exact Hi | apply Z.eqb_refl].
    - apply not_true_is_false. intros He. apply existsb_exists in He.
      destruct He as [x [Hx Heq]]. apply Z.eqb_eq in Heq. subst. contradiction. }
  split; [|split; [|split; reflexivity]].
  - intros c1 c2 E. unfold detectDelimiter. rewrite !split0_textBefore, E. reflexivity.
  - intros c. unfold detectDelimiter. rewrite split0_textBefore, !Hinc.
    destruct (in_dec Z.eq_dec 9 _); [reflexivity|].
    destruct (in_dec Z.eq_dec 59 _); [reflexivity|].
    destruct (in_dec Z.eq_dec 44 _); reflexivity.
Qed.




(** ** Claim C10: [combineDateTime ""] never fails and gives
    [T{time}-03:00] with an empty date part, [time] being a valid time or
    ["00:00:00"]; [combineDateTime("", "")] is ["T00:00:00-03:00"]; an NDJSON
    row whose [data] field is missing or empty gets a [datahora] of this
    form, beginning with [T]. *)
Theorem combineDateTime_empty_date :
  (forall t, exists time,
      combineDateTime [] t = js "T" ++ time ++ js "-03:00" /\
      (time = js "00:00:00" \/ isValidTime time = true)) /\
  combineDateTime [] (Some []) = js "T00:00:00-03:00" /\
  (forall n row, orStr (rowGet row (js "data")) [] = [] ->
     exists logs r time, ndjsonBuild n row = (logs, inr r) /\
       datahora r = js "T" ++ time ++ js "-03:00").
Proof.
  assert (H1 : forall t, exists time,
      combineDateTime [] t = js "T" ++ time ++ js "-03:00" /\
      (time = js "00:00:00" \/ isValidTime time = true)).
  { intros t. unfold combineDateTime. cbn [split0 split hd trim trimEnd trimStart rev app].
    destruct t as [t|]; [|eexists; split; [reflexivity | left; reflexivity]].
    destruct (truthyStr (Some t) && isValidTime (trim (split0 46 t))) eqn:E.
    - eexists; split; [reflexivity|]. right. apply andb_true_iff in E. tauto.
    - eexists; split; [reflexivity | left; reflexivity]. }
  split; [exact H1|]. split; [vm_compute; reflexivity|].
  intros n row Hd. unfold ndjsonBuild. rewrite Hd.
  destruct (H1 (Some (orStr (rowGet row (js "hora")) []))) as [time [Ht _]].
  do 3 eexists. split; [reflexivity|]. exact Ht.
Qed.

(** A row without [data]. *)
Lemma combineDateTime_empty_date_witness :
  orStr (rowGet [(js "hora", js "14:30:00")] (js "data")) [] = [] /\
  exists logs r time, ndjsonBuild 1 [(js "hora", js "14:30:00")] = (logs, inr r) /\
       datahora r = js "T" ++ time ++ js "-03:00".
Proof.
  split; [vm_compute; reflexivity|].
  apply (proj2 (proj2 combineDateTime_empty_date)). vm_compute. reflexivity.
Defined.

(** ** Claim C8: in the NDJSON variant the builder never throws, and the
    [meta] field of the record is the JSON serialization of the raw
    key/value pairs of the row, in their order, without the consumed keys
    [tipo], [natureza_acidente], [natureza], [situacao], [data] and [hora];
    every other pair of the row is kept unchanged. *)
Theorem ndjson_meta_residual_fields :
  forall n row, exists logs r,
    ndjsonBuild n row = (logs, inr r) /\
    meta r = jsonObject (metaEntries row) /\
    (forall k v, In (k, v) (metaEntries row) <-> In (k, v) row /\ ~ In k consumedKeys).
Proof.
  intros n row. do 2 eexists. split; [reflexivity|]. split; [reflexivity|].
  intros k v. unfold metaEntries. rewrite filter_In, negb_true_iff.
  rewrite <- mem_In. simpl fst. split.
  - intros [H1 H2]. rewrite H2. split; [exact H1 | discriminate].
  - intros [H1 H2]. split; [exact H1 | apply not_true_is_false; exact H2].
Qed.

Lemma transformLoop_spec :
  forall build file rows k,
    fst (transformLoop build file k rows) = writtenLines build k rows /\
    (forall i row msg, nth_error rows i = Some row ->
       snd (build (S (k + i)) row) = inl msg ->
       In (RowError file (S (k + i)) msg (jsonObject row)) (snd (transformLoop build file k rows))).
Proof.
  intros build file rows. induction rows as [|row rs IH]; intros k.
  - split; [reflexivity|]. intros [|i] row msg H; discriminate.
  - simpl. destruct (build (S k) row) as [logs res] eqn:Eb.
    destruct (transformLoop build file (S k) rs) as [out log] eqn:El.
    destruct (IH (S k)) as [IHo IHe]. rewrite El in IHo, IHe. simpl in IHo, IHe.
    split.
    + unfold writtenLines. simpl. rewrite Eb. simpl.
      destruct res as [msg|r]; simpl; rewrite IHo; reflexivity.
    + intros [|i] row' msg Hn Hm.
      * simpl in Hn. inversion Hn; subst row'. rewrite Nat.add_0_r in *. rewrite Eb in Hm.
        simpl in Hm. subst res. simpl. apply in_or_app. right. left. reflexivity.
      * simpl in Hn. specialize (IHe i row' msg Hn).
        rewrite Nat.add_succ_r in *. specialize (IHe Hm).
        destruct res; simpl; apply in_or_app; right; try right; exact IHe.
Qed.

(** ** Claim C9: in the NDJSON variant, for any row builder (whatever
    exceptions it raises), every row is processed: a row whose builder
    throws is logged as an error with the file name, its 1-based row
    number, the message and [JSON.stringify(row)], no line is written for
    it, and the lines written are exactly those of the other rows, in
    order; the file is never aborted by a row. *)
Theorem ndjson_row_errors_skipped :
  forall build file rows,
    fst (transformLoop build file 0 rows)
      = flat_map (fun '(i, row) => match snd (build i row) with
                                   | inr r => [recordLine r]
                                   | inl _ => []
                                   end)
                 (combine (seq 1 (List.length rows)) rows) /\
    (forall i row msg, nth_error rows i = Some row ->
       snd (build (S i) row) = inl msg ->
       In (RowError file (S i) msg (jsonObject row)) (snd (transformLoop build file 0 rows))).
Proof.
  intros build file rows. destruct (transformLoop_spec build file rows 0) as [H1 H2].
  split; [exact H1|]. intros i row msg. exact (H2 i row msg).
Qed.

(** ** The separator of the schema-unified pipeline *)

Lemma detectSeparator_extension : forall name, detectSeparator name = extensionSeparator name.
Proof.
  intros name. unfold detectSeparator, extensionSeparator.
  destruct (endsWith name (js ".tsv")); [reflexivity|].
  destruct (endsWith name (js ".csv")); reflexivity.
Qed.

(** ** Claim C6 (counterexample): for a [.txt] file whose first line is
    [data;situacao], the content-based detection of section 4.1 gives [;],
    but the schema-unified pipeline splits with [,]: the unified schema is
    [["datasituacao"]] and the row has the one key [datasituacao]. *)
Lemma separator_not_content_based :
  detectDelimiter (content txtFile) = 59 /\
  detectSeparator (fileName txtFile) = 44 /\
  collectUniqueHeaders [txtFile] = Some [js "datasituacao"] /\
  map ownKeys (csvRows (detectSeparator (fileName txtFile)) standardizeHeader (content txtFile))
    = [[js "datasituacao"]].
Proof. repeat split; vm_compute; reflexivity. Qed.

(** ** Claim C6 (amended): in the schema-unified pipeline the separator of
    each file, during header collection and during row processing, is
    chosen from the file name alone: [;] when it ends in [.tsv], [,]
    otherwise; the file contents do not take part in the choice. *)
Theorem separator_from_extension :
  (forall f, fileHeaders f
             = option_map (map standardizeHeader)
                 (csvHeader (extensionSeparator (fileName f)) (content f))) /\
  (forall tz allHeaders f,
      preprocessFile tz allHeaders f
      = preprocessRows tz allHeaders
          (csvRows (extensionSeparator (fileName f)) standardizeHeader (content f))) /\
  (forall f g, fileName f = fileName g ->
     extensionSeparator (fileName f) = extensionSeparator (fileName g)).
Proof.
  split; [|split].
  - intros f. unfold fileHeaders. rewrite detectSeparator_extension. reflexivity.
  - intros tz allHeaders f. unfold preprocessFile. rewrite detectSeparator_extension. reflexivity.
  - intros f g E. rewrite E. reflexivity.
Qed.

(** ** The end-to-end scenario of section 8 *)

(** ** Claim C2 (counterexample): with file A named [sinistros_a.csv] and
    file B named [sinistros_b.tsv] (the names for which the schema comes out
    as expected), file A's row gets [data = "2024-01-03"], not
    ["2024-03-01"]: [new Date("01/03/2024")] reads month/day/year. *)
Lemma scenario_date_month_first :
  collectUniqueHeaders [scenarioA (js "sinistros_a.csv"); scenarioB (js "sinistros_b.tsv")]
    = Some scenarioSchema /\
  exists r, preprocessFile 0 scenarioSchema (scenarioA (js "sinistros_a.csv")) = ([r], false) /\
            ownGet r (js "data") = Some (JStr (js "2024-01-03")) /\
            ownGet r (js "data") <> Some (JStr (js "2024-03-01")).
Proof.
  split; [vm_compute; reflexivity|].
  eexists. split; [vm_compute; reflexivity|]. split; vm_compute; [reflexivity|discriminate].
Qed.

Lemma normalizeDate_month_day_year :
  forall tz, normalizeDate tz (js "01/03/2024") = js "2024-01-03".
Proof.
  intros tz.
  change (normalizeDate tz (js "01/03/2024"))
    with (match jsDateParse tz (js "01/03/2024") with None => [] | Some t => formatYMD tz t end).
  assert (E : jsDateParse tz (js "01/03/2024") = Some (makeDay 2024 1 3 * msPerDay - tz * 60000))
    by reflexivity.
  rewrite E. unfold formatYMD.
  assert (D : (makeDay 2024 1 3 * msPerDay - tz * 60000 + tz * 60000) / msPerDay = makeDay 2024 1 3).
  { rewrite Z.sub_add. apply Z.div_mul. discriminate. }
  rewrite D. vm_compute. reflexivity.
Qed.

Lemma normalizeDate_iso :
  forall tz, -1440 < tz < 1440 ->
  normalizeDate tz (js "2024-03-02") = if 0 <=? tz then js "2024-03-02" else js "2024-03-01".
Proof.
  intros tz Htz.
  change (normalizeDate tz (js "2024-03-02"))
    with (match jsDateParse tz (js "2024-03-02") with None => [] | Some t => formatYMD tz t end).
  assert (E : jsDateParse tz (js "2024-03-02") = Some (makeDay 2024 3 2 * msPerDay))
    by reflexivity.
  rewrite E. unfold formatYMD.
  assert (D : (makeDay 2024 3 2 * msPerDay + tz * 60000) / msPerDay
              = makeDay 2024 3 2 + if 0 <=? tz then 0 else -1).
  { rewrite Z.div_add_l by discriminate. f_equal. unfold msPerDay.
    destruct (0 <=? tz) eqn:S; zbool; Z.div_mod_to_equations; lia. }
  rewrite D. destruct (0 <=? tz); vm_compute; reflexivity.
Qed.

(** ** Claim C2 (amended): when file A ([Data,Hora,Tipo]) has a name not
    ending in [.tsv] and file B ([data;situacao]) a name ending in [.tsv],
    the unified schema is [["data"; "hora"; "situacao"; "tipo"]]; file A's
    row is [data = "2024-01-03"] (month/day/year reading of [01/03/2024]),
    [hora = "14:05:00"], [situacao = ""], [tipo = "Colisão"]; file B's row
    is [data = "2024-03-02"], [hora = ""], [situacao = "Resolvido"],
    [tipo = ""].  The statement is made for a local time zone at UTC or
    east of it: west of UTC, [normalizeDate] reads the ISO date as UTC
    midnight and formats it in local time, a day earlier (see
    [normalizeDate_iso]). *)
Theorem scenario_end_to_end :
  forall nameA nameB tz,
    endsWith nameA (js ".tsv") = false ->
    endsWith nameB (js ".tsv") = true ->
    0 <= tz < 1440 ->
    collectUniqueHeaders [scenarioA nameA; scenarioB nameB] = Some scenarioSchema /\
    preprocessFile tz scenarioSchema (scenarioA nameA)
      = ([[(js "data", JStr (js "2024-01-03")); (js "hora", JStr (js "14:05:00"));
           (js "situacao", JStr []); (js "tipo", JStr colisao)]], false) /\
    preprocessFile tz scenarioSchema (scenarioB nameB)
      = ([[(js "data", JStr (js "2024-03-02"));
           (js "hora", JStr []); (js "situacao", JStr (js "Resolvido"));
           (js "tipo", JStr [])]], false).
Proof.
  intros nameA nameB tz HA HB Htz.
  assert (SA : detectSeparator nameA = 44).
  { rewrite detectSeparator_extension. unfold extensionSeparator. rewrite HA. reflexivity. }
  assert (SB : detectSeparator nameB = 59).
  { rewrite detectSeparator_extension. unfold extensionSeparator. rewrite HB. reflexivity. }
  split; [|split].
  - unfold collectUniqueHeaders, collectLoop, fileHeaders.
    change (fileName (scenarioA nameA)) with nameA.
    change (fileName (scenarioB nameB)) with nameB.
    rewrite SA, SB. vm_compute. reflexivity.
  - unfold preprocessFile. change (fileName (scenarioA nameA)) with nameA. rewrite SA.
    cbv -[normalizeDate]. rewrite normalizeDate_month_day_year. vm_compute. reflexivity.
  - unfold preprocessFile. change (fileName (scenarioB nameB)) with nameB. rewrite SB.
    assert (Z0 : (0 <=? tz) = true) by (apply Z.leb_le; lia).
    assert (Htz' : -1440 < tz < 1440) by lia.
    cbv -[normalizeDate];
      match goal with
      | |- context [normalizeDate tz ?s] =>
          replace (normalizeDate tz s) with (normalizeDate tz (js "2024-03-02")) by reflexivity
      end;
      rewrite (normalizeDate_iso tz Htz'), Z0; vm_compute; reflexivity.
Qed.

(** The scenario in UTC. *)
Lemma scenario_end_to_end_witness :
  endsWith (js "sinistros_a.csv") (js ".tsv") = false /\
  endsWith (js "sinistros_b.tsv") (js ".tsv") = true /\
  0 <= 0 < 1440 /\
  collectUniqueHeaders [scenarioA (js "sinistros_a.csv"); scenarioB (js "sinistros_b.tsv")]
    = Some scenarioSchema.
Proof.
  split; [reflexivity|]. split; [reflexivity|]. split; [lia|].
  apply (scenario_end_to_end (js "sinistros_a.csv") (js "sinistros_b.tsv") 0);
    [reflexivity | reflexivity | lia].
Defined.

(** ** The order of [Array.prototype.sort] on strings *)

Lemma strLtb_irrefl : forall a, strLtb a a = false.
Proof.
  induction a as [|x a IH]; [reflexivity|]. simpl. rewrite IH, Z.ltb_irrefl, Z.eqb_refl. reflexivity.
Qed.

Lemma strLtb_trans : forall a b c, strLtb a b = true -> strLtb b c = true -> strLtb a c = true.
Proof.
  induction a as [|x a IH]; intros [|y b] [|z c] H1 H2; simpl in *; try discriminate; auto.
  zbool.
  destruct H1 as [H1|[H1 H1']]; destruct H2 as [H2|[H2 H2']]; subst; try (left; lia).
  right. split; [reflexivity|]. eapply IH; eassumption.
Qed.

Lemma strLtb_total : forall a b, a <> b -> strLtb a b = false -> strLtb b a = true.
Proof.
  induction a as [|x a IH]; intros [|y b] Hne H; simpl in *; try reflexivity; try congruence.
  zbool. destruct H as [H1 H2].
  destruct (Z.eq_dec x y) as [->|Hxy].
  - right. split; [reflexivity|]. apply IH; [congruence|].
    destruct H2 as [H2|H2]; [lia|exact H2].
  - left. lia.
Qed.

#[local] Instance strLt_trans : RelationClasses.Transitive strLt.
Proof. intros a b c. apply strLtb_trans. Qed.

Lemma In_insertSorted : forall h l x, In x (insertSorted h l) <-> x = h \/ In x l.
Proof.
  intros h l x. induction l as [|y l IH]; simpl; [firstorder congruence|].
  destruct (strLtb y h); simpl; [rewrite IH|]; firstorder congruence.
Qed.

Lemma Sorted_insertSorted : forall h l, Sorted strLt l -> ~ In h l -> Sorted strLt (insertSorted h l).
Proof.
  intros h l Hs. induction Hs as [|y l Hs IH Hd]; intros Hn; simpl.
  - constructor; constructor.
  - destruct (strLtb y h) eqn:E.
    + constructor; [apply IH; simpl in Hn; tauto|].
      destruct l as [|z l]; simpl; [constructor; exact E|].
      inversion Hd; subst. destruct (strLtb z h); constructor; assumption.
    + constructor; [constructor; assumption|]. constructor.
      apply strLtb_total; [|exact E]. intros ->. apply Hn. left. reflexivity.
Qed.

Lemma sortStrings_spec : forall l, NoDup l ->
  StronglySorted strLt (sortStrings l) /\ (forall x, In x (sortStrings l) <-> In x l).
Proof.
  intros l Hnd. assert (HS : Sorted strLt (sortStrings l) /\ (forall x, In x (sortStrings l) <-> In x l)).
  { induction Hnd as [|h l Hn Hnd IH]; simpl.
    - split; [constructor | tauto].
    - destruct IH as [IHs IHi]. split.
      + apply Sorted_insertSorted; [exact IHs|]. rewrite IHi. exact Hn.
      + intros x. rewrite In_insertSorted, IHi. simpl. firstorder congruence. }
  destruct HS as [HS HI]. split; [apply Sorted_StronglySorted; [exact strLt_trans | exact HS] | exact HI].
Qed.

(** ** The accumulating [Set] of headers *)

Lemma fold_setAdd_spec : forall hs acc, NoDup acc ->
  NoDup (fold_left setAdd hs acc) /\
  (forall x, In x (fold_left setAdd hs acc) <-> In x acc \/ In x hs).
Proof.
  induction hs as [|h hs IH]; intros acc Hnd; simpl; [split; [exact Hnd | tauto]|].
  assert (Hnd' : NoDup (setAdd acc h) /\ (forall x, In x (setAdd acc h) <-> In x acc \/ x = h)).
  { unfold setAdd. destruct (mem h acc) eqn:E.
    - apply mem_In in E. split; [exact Hnd|]. intros x. split; [tauto|].
      intros [H| ->]; assumption.
    - split.
      + apply NoDup_app; [exact Hnd | constructor; [intros []| constructor] |].
        intros x Hx [<-|[]]. rewrite <- mem_In in Hx. congruence.
      + intros x. rewrite in_app_iff. simpl. firstorder congruence. }
  destruct Hnd' as [Hnd' Hin]. destruct (IH _ Hnd') as [H1 H2]. split; [exact H1|].
  intros x. rewrite H2, Hin. simpl. firstorder congruence.
Qed.

(** ** Header collection *)

Lemma split_nil_inv : forall c s, split c s = [[]] -> s = [].
Proof.
  intros c [|x r]; simpl; [reflexivity|].
  destruct (x =? c); [intros H; inversion H as [Hs]; exfalso; exact (split_not_nil c r Hs)|].
  destruct (split c r); discriminate.
Qed.

Lemma csvLines_not_nil : forall text, text <> [] -> csvLines text <> [].
Proof.
  intros text Hne. unfold csvLines.
  destruct (split 10 text) as [|p [|q ps]] eqn:E.
  - exfalso. exact (split_not_nil 10 text E).
  - simpl. destruct p as [|x p]; [|cbn; congruence].
    apply split_nil_inv in E. contradiction.
  - set (l := p :: q :: ps).
    assert (Hl : removelast l = p :: removelast (q :: ps)) by reflexivity.
    destruct (last l []); [rewrite Hl|]; unfold l; cbn; congruence.
Qed.

Lemma fileHeaders_nonempty : forall f, content f <> [] ->
  fileHeaders f = Some (map standardizeHeader (rawHeaderLabels f)).
Proof.
  intros f Hne. unfold fileHeaders, rawHeaderLabels, csvHeader.
  destruct (csvLines (content f)) eqn:E; [exfalso; exact (csvLines_not_nil _ Hne E)|].
  reflexivity.
Qed.

Lemma collectLoop_spec : forall files acc,
  Forall (fun f => content f <> []) files -> NoDup acc ->
  exists res, collectLoop acc files = Some res /\ NoDup res /\
    (forall x, In x res <-> In x acc \/
       exists f, In f files /\ exists l, In l (rawHeaderLabels f) /\ x = standardizeHeader l).
Proof.
  induction files as [|f fs IH]; intros acc Hall Hnd; inversion Hall as [|? ? Hf Hfs]; subst.
  - exists acc. simpl. split; [reflexivity|]. split; [exact Hnd|].
    intros x. split; [tauto|]. intros [H|[g [[] _]]]. exact H.
  - simpl. rewrite (fileHeaders_nonempty f Hf).
    destruct (fold_setAdd_spec (map standardizeHeader (rawHeaderLabels f)) acc Hnd) as [Hnd' Hin'].
    destruct (IH _ Hfs Hnd') as [res [Hr [Hnr Hir]]].
    exists res. split; [exact Hr|]. split; [exact Hnr|].
    intros x. rewrite Hir, Hin', in_map_iff. split.
    + intros [[H|[l [Hl Hx]]]|[g [Hg Hl]]].
      * left. exact H.
      * right. exists f. split; [left; reflexivity|]. exists l. split; [exact Hx | congruence].
      * right. exists g. split; [right; exact Hg | exact Hl].
    + intros [H|[g [[<-|Hg] [l [Hl Hx]]]]].
      * left. left. exact H.
      * left. right. exists l. split; [congruence | exact Hl].
      * right. exists g. split; [exact Hg|]. exists l. split; assumption.
Qed.

(** ** Own properties *)

Lemma ownGet_ownSet : forall o k v k',
  ownGet (ownSet o k v) k' = if str_eqb k' k then Some v else ownGet o k'.
Proof.
  induction o as [|[k0 v0] o IH]; intros k v k'; simpl.
  - destruct (str_eqb k' k); reflexivity.
  - destruct (str_eqb k k0) eqn:E; simpl.
    + apply str_eqb_eq in E. subst k0. destruct (str_eqb k' k); reflexivity.
    + rewrite IH. destruct (str_eqb k' k0) eqn:E1; [|reflexivity].
      apply str_eqb_eq in E1. subst k0.
      destruct (str_eqb k' k) eqn:E2; [|reflexivity].
      apply str_eqb_eq in E2. subst k'. rewrite (proj2 (str_eqb_eq k k) eq_refl) in E.
      discriminate.
Qed.

Lemma ownKeys_ownSet : forall o k v x, In x (ownKeys (ownSet o k v)) <-> In x (ownKeys o) \/ x = k.
Proof.
  induction o as [|[k0 v0] o IH]; intros k v x; simpl.
  - firstorder congruence.
  - destruct (str_eqb k k0) eqn:E; simpl.
    + apply str_eqb_eq in E. subst k0. firstorder congruence.
    + rewrite IH. firstorder congruence.
Qed.

Lemma ownGet_In : forall o k v, ownGet o k = Some v -> In k (ownKeys o).
Proof.
  induction o as [|[k0 v0] o IH]; intros k v H; simpl in *; [discriminate|].
  destruct (str_eqb k k0) eqn:E; [left; symmetry; apply str_eqb_eq; exact E|].
  right. eapply IH. exact H.
Qed.

Lemma str_neqb : forall a b, a <> b -> str_eqb a b = false.
Proof. intros a b H. apply not_true_is_false. rewrite str_eqb_eq. exact H. Qed.

Lemma objGet_own : forall o k, k <> js "constructor" -> k <> js "__proto__" ->
  objGet o k = ownGet o k.
Proof.
  intros o k H1 H2. unfold objGet. destruct (ownGet o k); [reflexivity|].
  rewrite !str_neqb by assumption. reflexivity.
Qed.

Lemma objGet_ownGet_some : forall o k v, ownGet o k = Some v -> objGet o k = Some v.
Proof. intros o k v H. unfold objGet. rewrite H. reflexivity. Qed.

Lemma objGet_str_own : forall o k s, objGet o k = Some (JStr s) -> ownGet o k = Some (JStr s).
Proof.
  intros o k s. unfold objGet. destruct (ownGet o k); [tauto|].
  destruct (str_eqb k (js "constructor")); [discriminate|].
  destruct (str_eqb k (js "__proto__")); discriminate.
Qed.

Lemma strValues_objSet : forall o k s, strValues o -> strValues (objSet o k (JStr s)).
Proof.
  intros o k s H k' v. unfold objSet. destruct (str_eqb k (js "__proto__")); [apply H|].
  rewrite ownGet_ownSet. destruct (str_eqb k' k); [intros E; inversion E; eauto | apply H].
Qed.

Lemma strValues_csvRowObj : forall hs cells i o, strValues o -> strValues (csvRowObj hs cells i o).
Proof.
  intros hs cells. revert hs. induction cells as [|c cs IH]; intros hs i o H; simpl; [exact H|].
  destruct hs; apply IH, strValues_objSet, H.
Qed.

Lemma strValues_csvRows : forall sep text row,
  In row (csvRows sep standardizeHeader text) -> strValues row.
Proof.
  intros sep text row. unfold csvRows. destruct (csvHeader sep text); [|intros []].
  rewrite in_map_iff. intros [cells [<- _]]. apply strValues_csvRowObj.
  intros k v H. discriminate.
Qed.

Lemma str_eqb_spec : forall a b, reflect (a = b) (str_eqb a b).
Proof. intros a b. apply iff_reflect. symmetry. apply str_eqb_eq. Qed.

Lemma ownGet_objSet : forall o k v k',
  ownGet (objSet o k v) k' =
  if str_eqb k (js "__proto__") then ownGet o k'
  else if str_eqb k' k then Some v else ownGet o k'.
Proof.
  intros o k v k'. unfold objSet. destruct (str_eqb k (js "__proto__")); [reflexivity|].
  apply ownGet_ownSet.
Qed.

Lemma ownKeys_objSet : forall o k v x,
  In x (ownKeys (objSet o k v)) <-> In x (ownKeys o) \/ (x = k /\ k <> js "__proto__").
Proof.
  intros o k v x. unfold objSet. destruct (str_eqb_spec k (js "__proto__")) as [E|E].
  - firstorder.
  - rewrite ownKeys_ownSet. firstorder.
Qed.

Lemma fold_objSet_spec : forall (val : jsstr -> JVal) hs o,
  (forall x, In x (ownKeys (fold_left (fun o h => objSet o h (val h)) hs o))
             <-> In x (ownKeys o) \/ (In x hs /\ x <> js "__proto__")) /\
  (forall k, ownGet (fold_left (fun o h => objSet o h (val h)) hs o) k
             = if mem k hs && negb (str_eqb k (js "__proto__")) then Some (val k) else ownGet o k).
Proof.
  intros val. induction hs as [|h hs IH]; intros o; simpl.
  - split; [firstorder | reflexivity].
  - destruct (IH (objSet o h (val h))) as [K G]. split.
    + intros x. rewrite K, ownKeys_objSet. firstorder congruence.
    + intros k. rewrite G, ownGet_objSet. unfold mem. simpl. fold (mem k hs).
      destruct (str_eqb_spec k h) as [->|Ne];
        destruct (str_eqb_spec h (js "__proto__")) as [Ep|Np]; simpl;
        destruct (mem _ hs); simpl; try reflexivity;
        try subst; destruct (str_eqb_spec _ (js "__proto__")); simpl;
        first [reflexivity | contradiction].
Qed.

Lemma updateIfTruthy_spec : forall o key f,
  (forall x, In x (ownKeys (updateIfTruthy o key f)) <-> In x (ownKeys o)) /\
  (forall k, k <> key -> ownGet (updateIfTruthy o key f) k = ownGet o k) /\
  (ownGet o key = Some (JStr []) -> updateIfTruthy o key f = o) /\
  (forall k s, ownGet o k = Some (JStr s) -> exists s', ownGet (updateIfTruthy o key f) k = Some (JStr s')).
Proof.
  intros o key f. unfold updateIfTruthy.
  destruct (objGet o key) as [[[|c s]| | |]|] eqn:E;
    try (split; [tauto | split; [reflexivity | split; [reflexivity | eauto]]]).
  apply objGet_str_own in E. split; [|split; [|split]].
  - intros x. rewrite ownKeys_objSet. split; [|tauto].
    intros [H|[-> _]]; [exact H | eapply ownGet_In; exact E].
  - intros k Hk. rewrite ownGet_objSet. destruct (str_eqb _ _); [reflexivity|].
    rewrite str_neqb by exact Hk. reflexivity.
  - intros H. congruence.
  - intros k s' H. rewrite ownGet_objSet.
    destruct (str_eqb _ _); [eauto|]. destruct (str_eqb k key); eauto.
Qed.

Lemma isNumericField_proto : isNumericField (js "__proto__") = false.
Proof. vm_compute. reflexivity. Qed.

Lemma isNumericField_ctor : isNumericField (js "constructor") = false.
Proof. vm_compute. reflexivity. Qed.

Lemma applyNumeric_spec : forall fs o, NoDup fs ->
  (forall f, In f fs -> f <> js "__proto__" /\ exists s, ownGet o f = Some (JStr s)) ->
  exists o', applyNumeric fs o = Some o' /\
    (forall x, In x (ownKeys o') <-> In x (ownKeys o)) /\
    (forall k, ~ In k fs -> ownGet o' k = ownGet o k) /\
    (forall k s, In k fs -> ownGet o k = Some (JStr s) ->
                 ownGet o' k = Some (JNum (parseNumericField s))).
Proof.
  induction fs as [|f fs IH]; intros o Hnd Hf.
  - exists o. simpl. split; [reflexivity|]. split; [tauto|]. split; [reflexivity|]. intros k s [].
  - inversion Hnd as [|? ? Hnin Hnd']; subst.
    destruct (Hf f (or_introl eq_refl)) as [Hp [s Hs]].
    simpl. rewrite (objGet_ownGet_some _ _ _ Hs). simpl.
    set (o1 := objSet o f (JNum (parseNumericField s))).
    assert (G1 : forall k, ownGet o1 k = if str_eqb k f then Some (JNum (parseNumericField s))
                                         else ownGet o k).
    { intros k. unfold o1. rewrite ownGet_objSet, str_neqb by exact Hp. reflexivity. }
    assert (K1 : forall x, In x (ownKeys o1) <-> In x (ownKeys o)).
    { intros x. unfold o1. rewrite ownKeys_objSet. split; [|tauto].
      intros [H|[-> _]]; [exact H | eapply ownGet_In; exact Hs]. }
    destruct (IH o1 Hnd') as [o' [Ha [Ka [Ga Na]]]].
    { intros g Hg. destruct (Hf g (or_intror Hg)) as [Hgp Hgs]. split; [exact Hgp|].
      rewrite G1, str_neqb; [exact Hgs|]. intros ->. contradiction. }
    exists o'. split; [exact Ha|]. split; [intros x; rewrite Ka; apply K1|]. split.
    + intros k Hk. rewrite Ga by (intros H; apply Hk; right; exact H).
      rewrite G1, str_neqb; [reflexivity|]. intros ->. apply Hk. left. reflexivity.
    + intros k s' [<-|Hk] Hks.
      * rewrite Ga by exact Hnin. rewrite G1, (proj2 (str_eqb_eq f f) eq_refl).
        rewrite Hs in Hks. inversion Hks. reflexivity.
      * apply Na; [exact Hk|]. rewrite G1, str_neqb; [exact Hks|].
        intros ->. contradiction.
Qed.

Lemma preprocessRow_spec : forall tz schema row, NoDup schema -> strValues row ->
  exists r, preprocessRow tz schema row = Some r /\
    (forall x, In x (ownKeys r) <-> In x schema /\ x <> js "__proto__") /\
    (forall k, In k schema -> k <> js "constructor" -> k <> js "__proto__" ->
       ownGet row k = None ->
       ownGet r k = Some (if isNumericField k then JNum (Fin 0) else JStr [])).
Proof.
  intros tz schema row Hnd Hrow. unfold preprocessRow.
  destruct (fold_objSet_spec (fun h => orEmpty (objGet row h)) schema []) as [K1 G1].
  set (r1 := fold_left (fun (o : obj) (h : jsstr) => objSet o h (orEmpty (objGet row h))) schema []) in *.
  destruct (updateIfTruthy_spec r1 (js "data") (normalizeDate tz)) as [K2 [G2 [E2 S2]]].
  set (r2 := updateIfTruthy r1 (js "data") (normalizeDate tz)) in *.
  destruct (updateIfTruthy_spec r2 (js "hora") normalizeTime) as [K3 [G3 [E3 S3]]].
  set (r3 := updateIfTruthy r2 (js "hora") normalizeTime) in *.
  (* the fields of the schema hold strings, except [constructor] and [__proto__] *)
  assert (Str1 : forall k, In k schema -> k <> js "constructor" -> k <> js "__proto__" ->
                 ownGet r1 k = Some (orEmpty (ownGet row k)) /\
                 exists s, ownGet r1 k = Some (JStr s)).
  { intros k Hk Hc Hp. rewrite G1, (proj2 (mem_In k schema) Hk), str_neqb by exact Hp. simpl.
    rewrite objGet_own by assumption. split; [reflexivity|].
    unfold orEmpty. destruct (ownGet row k) as [v|] eqn:Ev; [|eauto].
    destruct (Hrow k v Ev) as [s ->]. destruct (truthy _); eauto. }
  assert (Str3 : forall k, In k schema -> k <> js "constructor" -> k <> js "__proto__" ->
                 exists s, ownGet r3 k = Some (JStr s)).
  { intros k Hk Hc Hp. destruct (Str1 k Hk Hc Hp) as [_ [s Hs]].
    destruct (S2 k s Hs) as [s2 Hs2]. exact (S3 k s2 Hs2). }
  destruct (applyNumeric_spec (filter isNumericField schema) r3) as [r [Ha [Ka [Ga Na]]]].
  { apply NoDup_filter, Hnd. }
  { intros f Hf. apply filter_In in Hf. destruct Hf as [Hf Hn].
    assert (Hp : f <> js "__proto__") by (intros ->; rewrite isNumericField_proto in Hn; discriminate).
    assert (Hc : f <> js "constructor") by (intros ->; rewrite isNumericField_ctor in Hn; discriminate).
    split; [exact Hp | exact (Str3 f Hf Hc Hp)]. }
  exists r. split; [exact Ha|]. split.
  - intros x. rewrite Ka, K3, K2, K1. simpl. tauto.
  - intros k Hk Hc Hp Hnone.
    assert (R1 : ownGet r1 k = Some (JStr [])).
    { destruct (Str1 k Hk Hc Hp) as [H _]. rewrite H, Hnone. reflexivity. }
    assert (R2 : ownGet r2 k = Some (JStr [])).
    { destruct (str_eqb_spec k (js "data")) as [->|Ne]; [rewrite E2 by exact R1; exact R1|].
      rewrite G2 by exact Ne. exact R1. }
    assert (R3 : ownGet r3 k = Some (JStr [])).
    { destruct (str_eqb_spec k (js "hora")) as [->|Ne]; [rewrite E3 by exact R2; exact R2|].
      rewrite G3 by exact Ne. exact R2. }
    destruct (isNumericField k) eqn:En.
    + rewrite (Na k [] (proj2 (filter_In _ _ _) (conj Hk En)) R3). reflexivity.
    + rewrite Ga; [exact R3|]. rewrite filter_In. intros [_ H]. congruence.
Qed.

Lemma preprocessRows_In : forall tz schema rows r,
  In r (fst (preprocessRows tz schema rows)) ->
  exists row, In row rows /\ preprocessRow tz schema row = Some r.
Proof.
  induction rows as [|row rs IH]; intros r H; simpl in H; [contradiction|].
  destruct (preprocessRow tz schema row) as [r0|] eqn:E; [|contradiction].
  destruct (preprocessRows tz schema rs) as [out failed] eqn:Er. simpl in H.
  destruct H as [<-|H].
  - exists row. split; [left; reflexivity | exact E].
  - destruct (IH r H) as [row' [Hin Hp]].
    exists row'. split; [right; exact Hin | exact Hp].
Qed.

(** ** Claim C1 (counterexample): a schema key absent from a file's row
    does not always map to the empty string: with file 1 having the column
    [vitimas] and file 2 only [data], the record of file 2 has [vitimas = 0]
    (a number), since [vitimas] is a numeric field. *)
Lemma schema_absent_numeric_is_zero :
  collectUniqueHeaders [fileA1; fileB1] = Some [js "data"; js "vitimas"] /\
  exists r, preprocessFile 0 [js "data"; js "vitimas"] fileB1 = ([r], false) /\
    ownGet (csvRowObj [js "data"] [js "2024-03-02"] 0 []) (js "vitimas") = None /\
    ownGet r (js "vitimas") = Some (JNum (Fin 0)) /\
    ownGet r (js "vitimas") <> Some (JStr []).
Proof.
  split; [vm_compute; reflexivity|].
  eexists. split; [vm_compute; reflexivity|].
  split; [vm_compute; reflexivity|]. split; vm_compute; [reflexivity | discriminate].
Qed.

(** ** Claim C1 (amended): for a batch of files that are not empty,
    [collectUniqueHeaders] returns the strictly sorted list, without
    duplicates, of [standardizeHeader] applied to every header label of
    every file (labels split with the separator of [detectSeparator]); every
    record written for a file in schema-unified mode has as own keys exactly
    the keys of that schema ([__proto__] excepted), and a schema key absent
    from the file's row ([constructor] and [__proto__] excepted) holds the
    empty string, or the number 0 when it is a numeric field. *)
Theorem unified_schema_and_records :
  forall files, Forall (fun f => content f <> []) files ->
  exists schema, collectUniqueHeaders files = Some schema /\
    StronglySorted strLt schema /\
    (forall h, In h schema <->
       exists f, In f files /\ exists l, In l (rawHeaderLabels f) /\ h = standardizeHeader l) /\
    (forall tz f r, In r (fst (preprocessFile tz schema f)) ->
       exists row, In row (csvRows (detectSeparator (fileName f)) standardizeHeader (content f)) /\
         preprocessRow tz schema row = Some r /\
         (forall x, In x (ownKeys r) <-> In x schema /\ x <> js "__proto__") /\
         (forall k, In k schema -> k <> js "constructor" -> k <> js "__proto__" ->
            ownGet row k = None ->
            ownGet r k = Some (if isNumericField k then JNum (Fin 0) else JStr []))).
Proof.
  intros files Hall.
  destruct (collectLoop_spec files [] Hall (NoDup_nil _)) as [res [Hr [Hnd Hin]]].
  destruct (sortStrings_spec res Hnd) as [Hs Hi].
  assert (Hnd' : NoDup (sortStrings res)).
  { clear -Hs. induction Hs as [|a l Hs IH Hf]; constructor; [|exact IH].
    intros Ha. rewrite Forall_forall in Hf. specialize (Hf a Ha).
    unfold strLt in Hf. rewrite strLtb_irrefl in Hf. discriminate. }
  exists (sortStrings res). split; [unfold collectUniqueHeaders; rewrite Hr; reflexivity|].
  split; [exact Hs|]. split.
  - intros h. rewrite Hi, Hin. simpl. tauto.
  - intros tz f r H. apply preprocessRows_In in H. destruct H as [row [Hrow Hp]].
    destruct (preprocessRow_spec tz (sortStrings res) row Hnd'
                (strValues_csvRows _ _ _ Hrow)) as [r' [Hp' [K V]]].
    rewrite Hp in Hp'. inversion Hp'; subst r'.
    exists row. split; [exact Hrow|]. split; [exact Hp|]. split; [exact K | exact V].
Qed.

(** Two non-empty files. *)
Lemma unified_schema_and_records_witness :
  Forall (fun f => content f <> []) [fileA1; fileB1] /\
  exists schema, collectUniqueHeaders [fileA1; fileB1] = Some schema /\
    StronglySorted strLt schema.
Proof.
  assert (H : Forall (fun f => content f <> []) [fileA1; fileB1]).
  { repeat constructor; vm_compute; discriminate. }
  split; [exact H|].
  destruct (unified_schema_and_records [fileA1; fileB1] H) as [schema [H1 [H2 _]]].
  exists schema. split; assumption.
Defined.

(** * Further properties of the code *)

(** ** [normalizeTime] *)

Lemma split_no_sep : forall c s, ~ In c s -> split c s = [s].
Proof.
  intros c s. induction s as [|x r IH]; intros H; [reflexivity|]. simpl.
  destruct (Z.eqb_spec x c) as [->|Ne]; [exfalso; apply H; left; reflexivity|].
  rewrite IH by (intros Hr; apply H; right; exact Hr). reflexivity.
Qed.

Lemma split_app_sep : forall c a b, ~ In c a -> split c (a ++ c :: b) = a :: split c b.
Proof.
  intros c a b. induction a as [|x r IH]; intros H; simpl; [rewrite Z.eqb_refl; reflexivity|].
  destruct (Z.eqb_spec x c) as [->|Ne]; [exfalso; apply H; left; reflexivity|].
  rewrite IH by (intros Hr; apply H; right; exact Hr). reflexivity.
Qed.

Lemma split_part_no_sep : forall c s p, In p (split c s) -> ~ In c p.
Proof.
  intros c s. induction s as [|x r IH]; intros p Hp; simpl in Hp.
  - destruct Hp as [<-|[]]. intros [].
  - destruct (Z.eqb_spec x c) as [->|Ne].
    + destruct Hp as [<-|Hp]; [intros []|exact (IH p Hp)].
    + destruct (split c r) as [|q qs] eqn:E; [exfalso; exact (split_not_nil c r E)|].
      destruct Hp as [<-|Hp].
      * intros [Hx|Hq]; [congruence|]. apply (IH q); [left; reflexivity|exact Hq].
      * apply IH. right. exact Hp.
Qed.

Lemma split_two_parts : forall c s, In c s -> exists p0 p1 rest, split c s = p0 :: p1 :: rest.
Proof.
  intros c s. induction s as [|x r IH]; intros H; [destruct H|]. simpl.
  destruct (Z.eqb_spec x c) as [->|Ne].
  - destruct (split c r) as [|q qs] eqn:E; [exfalso; exact (split_not_nil c r E)|]. eauto.
  - destruct H as [H|H]; [congruence|]. destruct (IH H) as [p0 [p1 [rest ->]]]. eauto.
Qed.

Lemma padStart2_length : forall s, (2 <= List.length (padStart2 s))%nat.
Proof. intros [|x [|y r]]; simpl; lia. Qed.

Lemma padStart2_id : forall s, (2 <= List.length s)%nat -> padStart2 s = s.
Proof. intros [|x [|y r]] H; simpl in H; [lia|lia|reflexivity]. Qed.

Lemma padStart2_no_colon : forall s, ~ In 58 s -> ~ In 58 (padStart2 s).
Proof.
  intros [|x [|y r]] H; simpl.
  - intros [E|[E|[]]]; discriminate.
  - intros [E|[E|[]]]; [discriminate|subst; apply H; left; reflexivity].
  - exact H.
Qed.

(** A text [a:b:c] whose three parts have at least two code units each is
    left unchanged by [normalizeTime]. *)
Lemma normalizeTime_fixed : forall a b c,
  ~ In 58 a -> ~ In 58 b -> ~ In 58 c ->
  (2 <= List.length a)%nat -> (2 <= List.length b)%nat -> (2 <= List.length c)%nat ->
  normalizeTime (a ++ 58 :: b ++ 58 :: c) = a ++ 58 :: b ++ 58 :: c.
Proof.
  intros a b c Ha Hb Hc La Lb Lc. unfold normalizeTime.
  rewrite split_app_sep by exact Ha. rewrite split_app_sep by exact Hb.
  rewrite split_no_sep by exact Hc.
  rewrite (padStart2_id a La), (padStart2_id b Lb).
  destruct c as [|z c']; [simpl in Lc; lia|]. rewrite (padStart2_id _ Lc).
  destruct a as [|x a']; [simpl in La; lia|]. reflexivity.
Qed.

(** The shape of a non-empty result of [normalizeTime]. *)
Lemma normalizeTime_shape : forall s, normalizeTime s <> [] ->
  exists a b c, normalizeTime s = a ++ 58 :: b ++ 58 :: c /\
    ~ In 58 a /\ ~ In 58 b /\ ~ In 58 c /\
    (2 <= List.length a)%nat /\ (2 <= List.length b)%nat /\ (2 <= List.length c)%nat.
Proof.
  intros s H. unfold normalizeTime in *. destruct s as [|x r]; [congruence|].
  destruct (split 58 (x :: r)) as [|p0 [|p1 rest]] eqn:E; try congruence.
  assert (P0 : ~ In 58 p0) by (apply (split_part_no_sep 58 (x :: r)); rewrite E; left; reflexivity).
  assert (P1 : ~ In 58 p1) by (apply (split_part_no_sep 58 (x :: r)); rewrite E; right; left; reflexivity).
  exists (padStart2 p0), (padStart2 p1).
  destruct rest as [|p2 rest'].
  - exists [48; 48]. split; [reflexivity|].
    repeat split; auto using padStart2_no_colon, padStart2_length.
    intros [E1|[E1|[]]]; discriminate.
  - assert (P2 : ~ In 58 p2)
      by (apply (split_part_no_sep 58 (x :: r)); rewrite E; right; right; left; reflexivity).
    destruct p2 as [|y p2'].
    + exists [48; 48]. split; [reflexivity|].
      repeat split; auto using padStart2_no_colon, padStart2_length.
      intros [E1|[E1|[]]]; discriminate.
    + exists (padStart2 (y :: p2')). split; [reflexivity|].
      repeat split; auto using padStart2_no_colon, padStart2_length.
Qed.

(** [normalizeTime] gives the empty string exactly when its input has no
    [:] (the empty input included); otherwise it gives three parts joined
    by [:], each without [:] and at least two code units long. *)
Theorem normalizeTime_empty_iff_no_colon : forall s,
  (normalizeTime s = [] <-> ~ In 58 s) /\
  (In 58 s -> exists a b c, normalizeTime s = a ++ 58 :: b ++ 58 :: c /\
     ~ In 58 a /\ ~ In 58 b /\ ~ In 58 c /\
     (2 <= List.length a)%nat /\ (2 <= List.length b)%nat /\ (2 <= List.length c)%nat).
Proof.
  intros s.
  assert (I : normalizeTime s = [] <-> ~ In 58 s).
  { split.
    - intros H Hin. destruct s as [|x r]; [destruct Hin|].
      destruct (split_two_parts 58 _ Hin) as [p0 [p1 [rest E]]].
      unfold normalizeTime in H. rewrite E in H.
      apply app_eq_nil in H. destruct H as [H _].
      pose proof (padStart2_length p0) as L. rewrite H in L. simpl in L. lia.
    - intros H. destruct s as [|x r]; [reflexivity|]. unfold normalizeTime.
      rewrite split_no_sep by exact H. reflexivity. }
  split; [exact I|]. intros Hin. apply normalizeTime_shape. rewrite I. tauto.
Qed.

(** [normalizeTime] is idempotent: a normalized time is normalized again
    to itself. *)
Theorem normalizeTime_idempotent : forall s,
  normalizeTime (normalizeTime s) = normalizeTime s.
Proof.
  intros s. destruct (list_eq_dec Z.eq_dec (normalizeTime s) []) as [E|E].
  - rewrite E. reflexivity.
  - destruct (normalizeTime_shape s E) as [a [b [c [Eq [Ha [Hb [Hc [La [Lb Lc]]]]]]]]].
    rewrite Eq. apply normalizeTime_fixed; assumption.
Qed.

(** ** [parseNumericField] on decimal numbers *)












(** ** File names *)

Lemma startsWith_app_iff : forall s p, startsWith s p = true <-> exists t, s = p ++ t.
Proof.
  intros s p. revert s. induction p as [|y p IH]; intros s; simpl.
  - split; [intros _; exists s; reflexivity | destruct s; reflexivity].
  - destruct s as [|x s'].
    + split; [discriminate|]. intros [t E]. discriminate.
    + simpl. rewrite andb_true_iff, IH, Z.eqb_eq. split.
      * intros [-> [t ->]]. exists t. reflexivity.
      * intros [t E]. inversion E; subst. eauto.
Qed.

Lemma endsWith_app_iff : forall s p, endsWith s p = true <-> exists t, s = t ++ p.
Proof.
  intros s p. unfold endsWith. rewrite startsWith_app_iff. split.
  - intros [t E]. exists (rev t). rewrite <- (rev_involutive s), E, rev_app_distr, rev_involutive.
    reflexivity.
  - intros [t ->]. exists (rev t). apply rev_app_distr.
Qed.

Lemma endsWith_suffix : forall t p, endsWith (t ++ p) p = true.
Proof. intros t p. apply endsWith_app_iff. eauto. Qed.

(** The three extensions of the input files. *)

Lemma inputExtensions_length : forall e, In e inputExtensions -> List.length e = 4%nat.
Proof. intros e He. simpl in He. destruct He as [<-|[<-|[<-|[]]]]; reflexivity. Qed.

(** A name ends in at most one of the extensions. *)
Lemma endsWith_ext_other : forall t e e', In e inputExtensions -> In e' inputExtensions ->
  e <> e' -> endsWith (t ++ e) e' = false.
Proof.
  intros t e e' He He' Ne. unfold endsWith. rewrite rev_app_distr.
  simpl in He, He'.
  destruct He as [<-|[<-|[<-|[]]]]; destruct He' as [<-|[<-|[<-|[]]]];
    solve [congruence | reflexivity].
Qed.

Lemma lastIndexOfFrom_app : forall c s t i acc,
  lastIndexOfFrom c i (s ++ t) acc = lastIndexOfFrom c (i + List.length s) t (lastIndexOfFrom c i s acc).
Proof.
  intros c s. induction s as [|x s IH]; intros t i acc; simpl.
  - rewrite Nat.add_0_r. reflexivity.
  - rewrite IH, Nat.add_succ_r. reflexivity.
Qed.

Lemma pathParseName_ext : forall stem e, stem <> [] -> In e inputExtensions ->
  pathParseName (stem ++ e) = stem.
Proof.
  intros stem e Hs He. unfold pathParseName, lastIndexOf. rewrite lastIndexOfFrom_app.
  assert (L : lastIndexOfFrom 46 (0 + List.length stem) e (lastIndexOfFrom 46 0 stem None)
              = Some (List.length stem)).
  { simpl in He. destruct He as [<-|[<-|[<-|[]]]]; reflexivity. }
  rewrite L. destruct stem as [|x stem']; [congruence|]. simpl List.length.
  destruct (str_eqb ((x :: stem') ++ e) (js "..")) eqn:E.
  - exfalso. apply str_eqb_eq in E. apply (f_equal (@List.length Z)) in E.
    rewrite length_app in E. simpl in He.
    destruct He as [<-|[<-|[<-|[]]]]; simpl in E; lia.
  - replace (S (List.length stem')) with (List.length (x :: stem') + 0)%nat by (simpl; lia).
    rewrite firstn_app_2. simpl. rewrite app_nil_r. reflexivity.
Qed.

(** A file picked by [preprocessAllFiles] is a stem followed by one of the
    extensions, and [path.parse] gives that stem as its name. *)
Lemma preprocessSelects_shape : forall f, preprocessSelects f = true ->
  exists stem e, f = stem ++ e /\ In e inputExtensions /\ stem <> [] /\ pathParseName f = stem.
Proof.
  intros f H. unfold preprocessSelects in H. rewrite !andb_true_iff, !orb_true_iff in H.
  destruct H as [Hp He].
  assert (Ex : exists e, In e inputExtensions /\ endsWith f e = true).
  { destruct He as [[H|H]|H]; eexists; split; try exact H; simpl; tauto. }
  destruct Ex as [e [Hin Hend]]. apply endsWith_app_iff in Hend. destruct Hend as [stem ->].
  apply startsWith_app_iff in Hp. destruct Hp as [t Ht].
  assert (Ns : stem <> []).
  { intros ->. apply (f_equal (@List.length Z)) in Ht. rewrite length_app in Ht.
    simpl in Hin, Ht. destruct Hin as [<-|[<-|[<-|[]]]]; simpl in Ht; lia. }
  exists stem, e. repeat split; auto. apply pathParseName_ext; assumption.
Qed.

(** [index.ts] and [preprocess.ts] have each their own [detectSeparator]:
    they agree on every file [main] of [index.ts] picks ([sinistros*.csv]
    and [sinistros*.tsv]), and disagree on a name with neither extension
    (such as the [.txt] files [preprocessAllFiles] also picks): [index.ts]
    gives [;] and [preprocess.ts] gives [,]. *)
Theorem index_detectSeparator_vs_preprocess : forall name,
  (EtlIndex.selects name = true -> EtlIndex.detectSeparator name = detectSeparator name) /\
  (endsWith name (js ".csv") = false -> endsWith name (js ".tsv") = false ->
     EtlIndex.detectSeparator name = 59 /\ detectSeparator name = 44).
Proof.
  intros name. unfold EtlIndex.selects, EtlIndex.detectSeparator, detectSeparator. split.
  - rewrite andb_true_iff, orb_true_iff. intros [_ [Hc|Ht]].
    + rewrite Hc. apply endsWith_app_iff in Hc. destruct Hc as [t ->].
      rewrite (endsWith_ext_other t (js ".csv") (js ".tsv")); simpl; auto. discriminate.
    + rewrite Ht. apply endsWith_app_iff in Ht. destruct Ht as [t ->].
      rewrite (endsWith_ext_other t (js ".tsv") (js ".csv")); simpl; auto. discriminate.
  - intros Hc Ht. rewrite Hc, Ht. split; reflexivity.
Qed.

(** A [.csv] name and a name with no known extension. *)
Lemma index_detectSeparator_vs_preprocess_witness :
  EtlIndex.detectSeparator (js "sinistros_2021.csv") = detectSeparator (js "sinistros_2021.csv") /\
  EtlIndex.detectSeparator (js "sinistros_2021.txt") = 59 /\ detectSeparator (js "sinistros_2021.txt") = 44.
Proof.
  split.
  - apply (proj1 (index_detectSeparator_vs_preprocess (js "sinistros_2021.csv"))). reflexivity.
  - apply (proj2 (index_detectSeparator_vs_preprocess (js "sinistros_2021.txt"))); reflexivity.
Defined.

(** Two files picked by [preprocessAllFiles] are written to the same output
    file [<name>_processed.csv] exactly when their names differ at most in
    the extension ([.csv], [.tsv] or [.txt]); the later one then replaces
    the output of the earlier one. *)
Theorem outputFileName_collision : forall f g,
  preprocessSelects f = true -> preprocessSelects g = true ->
  (outputFileName f = outputFileName g <->
   exists stem ef eg, f = stem ++ ef /\ g = stem ++ eg /\
     In ef inputExtensions /\ In eg inputExtensions).
Proof.
  intros f g Hf Hg.
  destruct (preprocessSelects_shape f Hf) as [sf [ef [Ef [Ief [Nf Pf]]]]].
  destruct (preprocessSelects_shape g Hg) as [sg [eg [Eg [Ieg [Ng Pg]]]]].
  unfold outputFileName. rewrite Pf, Pg. split.
  - intros E. apply app_inv_tail in E. exists sf, ef, eg.
    split; [exact Ef|]. split; [rewrite Eg, <- E; reflexivity|]. split; assumption.
  - intros [stem [ef' [eg' [E1 [E2 [I1 I2]]]]]].
    assert (S1 : stem <> []).
    { intros ->. simpl in E1. rewrite E1 in Ef. apply (f_equal (@List.length Z)) in Ef.
      rewrite length_app, (inputExtensions_length _ I1), (inputExtensions_length _ Ief) in Ef.
      destruct sf; [congruence | simpl in Ef; lia]. }
    rewrite E1, pathParseName_ext in Pf by assumption.
    rewrite E2, pathParseName_ext in Pg by assumption.
    rewrite <- Pf, <- Pg. reflexivity.
Qed.

(** [sinistros_2021.csv] and [sinistros_2021.tsv]. *)
Lemma outputFileName_collision_witness :
  preprocessSelects (js "sinistros_2021.csv") = true /\
  preprocessSelects (js "sinistros_2021.tsv") = true /\
  outputFileName (js "sinistros_2021.csv") = outputFileName (js "sinistros_2021.tsv").
Proof.
  assert (H1 : preprocessSelects (js "sinistros_2021.csv") = true) by reflexivity.
  assert (H2 : preprocessSelects (js "sinistros_2021.tsv") = true) by reflexivity.
  split; [exact H1|]. split; [exact H2|].
  apply (proj2 (outputFileName_collision _ _ H1 H2)).
  exists (js "sinistros_2021"), (js ".csv"), (js ".tsv").
  split; [reflexivity|]. split; [reflexivity|]. simpl. tauto.
Defined.

(** In the NDJSON variant, a [.csv] and a [.tsv] file of the same stem are
    both written to [<stem>_processed.ndjson]; any other name is kept as
    the output file name. *)
Theorem ndjsonOutputFileName_spec : forall stem name,
  ndjsonOutputFileName (stem ++ js ".csv") = stem ++ js "_processed.ndjson" /\
  ndjsonOutputFileName (stem ++ js ".tsv") = stem ++ js "_processed.ndjson" /\
  (endsWith name (js ".csv") = false -> endsWith name (js ".tsv") = false ->
     ndjsonOutputFileName name = name).
Proof.
  intros stem name. unfold ndjsonOutputFileName.
  assert (F : forall e, List.length e = 4%nat ->
              firstn (List.length (stem ++ e) - 4) (stem ++ e) = stem).
  { intros e Le. rewrite length_app, Le, Nat.add_sub.
    rewrite <- (Nat.add_0_r (List.length stem)), firstn_app_2. simpl. apply app_nil_r. }
  split; [|split].
  - rewrite endsWith_suffix. simpl orb. rewrite F by reflexivity. reflexivity.
  - rewrite endsWith_suffix, orb_true_r. rewrite F by reflexivity. reflexivity.
  - intros Hc Ht. rewrite Hc, Ht. reflexivity.
Qed.

(** The third part at a [.txt] name. *)
Lemma ndjsonOutputFileName_spec_witness :
  ndjsonOutputFileName (js "notas.txt") = js "notas.txt".
Proof.
  apply (proj2 (proj2 (ndjsonOutputFileName_spec [] (js "notas.txt")))); reflexivity.
Defined.

(** ** The NDJSON output *)

Lemma not_in_app : forall (x : Z) a b, ~ In x a -> ~ In x b -> ~ In x (a ++ b).
Proof. intros x a b Ha Hb H. apply in_app_iff in H. tauto. Qed.

Lemma hexDigit_ge : forall n, 0 <= n -> 48 <= hexDigit n.
Proof. intros n H. unfold hexDigit. destruct (n <? 10); lia. Qed.

Lemma hex4_no_newline : forall c, ~ In 10 (hex4 c).
Proof.
  intros c. unfold hex4.
  assert (B : forall n, 48 <= hexDigit (n mod 16))
    by (intros n; apply hexDigit_ge, Z.mod_pos_bound; lia).
  intros [E|[E|[E|[E|[]]]]];
    match type of E with hexDigit (?m mod 16) = _ => specialize (B m) end; lia.
Qed.

Lemma quoteBody_no_newline : forall s, ~ In 10 (quoteBody s).
Proof.
  intros s. remember (List.length s) as n eqn:Hn. revert s Hn.
  induction n as [n IH] using lt_wf_ind. intros [|c r] Hn; [intros []|].
  simpl in Hn.
  assert (IHr : ~ In 10 (quoteBody r)) by (apply (IH (List.length r)); [lia|reflexivity]).
  cbn [quoteBody].
  destruct (c =? 34); [apply not_in_app; [intros [E|[E|[]]]; discriminate | exact IHr]|].
  destruct (c =? 92); [apply not_in_app; [intros [E|[E|[]]]; discriminate | exact IHr]|].
  destruct (c =? 8); [apply not_in_app; [intros [E|[E|[]]]; discriminate | exact IHr]|].
  destruct (c =? 9); [apply not_in_app; [intros [E|[E|[]]]; discriminate | exact IHr]|].
  destruct (Z.eqb_spec c 10) as [_|N10];
    [apply not_in_app; [intros [E|[E|[]]]; discriminate | exact IHr]|].
  destruct (c =? 12); [apply not_in_app; [intros [E|[E|[]]]; discriminate | exact IHr]|].
  destruct (c =? 13); [apply not_in_app; [intros [E|[E|[]]]; discriminate | exact IHr]|].
  assert (Hx : ~ In 10 ([92; 117] ++ hex4 c)).
  { apply not_in_app; [intros [E|[E|[]]]; discriminate | apply hex4_no_newline]. }
  destruct (c <? 32); [rewrite app_assoc; apply not_in_app; assumption|].
  destruct (isLeadSurrogate c) eqn:Lead.
  - destruct r as [|d r'].
    + exact Hx.
    + destruct (isTrailSurrogate d) eqn:Trail.
      * unfold isLeadSurrogate, isTrailSurrogate in *. zbool.
        assert (IHr' : ~ In 10 (quoteBody r')) by (apply (IH (List.length r')); [simpl in Hn; lia|reflexivity]).
        intros [E|[E|E]]; [lia|lia|exact (IHr' E)].
      * rewrite app_assoc. apply not_in_app; assumption.
  - destruct (isTrailSurrogate c); [rewrite app_assoc; apply not_in_app; assumption|].
    intros [E|E]; [congruence | exact (IHr E)].
Qed.

Lemma jsonString_no_newline : forall s, ~ In 10 (jsonString s).
Proof.
  intros s. unfold jsonString. apply not_in_app; [intros [E|[]]; discriminate|].
  apply not_in_app; [apply quoteBody_no_newline | intros [E|[]]; discriminate].
Qed.

Lemma jsonObject_no_newline : forall es, ~ In 10 (jsonObject es).
Proof.
  intros es. unfold jsonObject.
  assert (M : ~ In 10 (jsonMembers es)).
  { induction es as [|[k v] r IH]; [intros []|].
    assert (P : ~ In 10 (jsonString k ++ js ":" ++ jsonString v)).
    { apply not_in_app; [apply jsonString_no_newline|].
      apply not_in_app; [intros [E|[]]; discriminate | apply jsonString_no_newline]. }
    destruct r as [|kv r'].
    - exact P.
    - change (~ In 10 (jsonString k ++ js ":" ++ jsonString v ++ js "," ++ jsonMembers (kv :: r'))).
      rewrite app_assoc, app_assoc. apply not_in_app; [rewrite <- app_assoc; exact P|].
      apply not_in_app; [intros [E|[]]; discriminate | exact IH]. }
  apply not_in_app; [intros [E|[]]; discriminate|].
  apply not_in_app; [exact M | intros [E|[]]; discriminate].
Qed.

Lemma transformLoop_lines : forall build file k rows l,
  In l (fst (transformLoop build file k rows)) -> exists r, l = recordLine r.
Proof.
  intros build file k rows. revert k. induction rows as [|row rs IH]; intros k l H; [destruct H|].
  simpl in H. destruct (build (S k) row) as [logs res].
  destruct (transformLoop build file (S k) rs) as [out log] eqn:E.
  destruct res as [msg|r]; simpl in H.
  - apply (IH (S k)). rewrite E. exact H.
  - destruct H as [<-|H]; [eauto|]. apply (IH (S k)). rewrite E. exact H.
Qed.

Lemma split_concat_lines : forall lines,
  (forall l, In l lines -> exists j, l = j ++ [10] /\ ~ In 10 j) ->
  split 10 (List.concat lines) = map (@removelast Z) lines ++ [[]].
Proof.
  induction lines as [|l ls IH]; intros H; [reflexivity|].
  destruct (H l (or_introl eq_refl)) as [j [-> Nj]]. simpl.
  rewrite <- app_assoc. simpl. rewrite split_app_sep by exact Nj.
  rewrite IH by (intros l' Hl'; apply H; right; exact Hl'). rewrite removelast_last. reflexivity.
Qed.

(** Every line the NDJSON [preprocessFile] writes is one JSON text followed
    by a single ["\n"], whatever the field values (line breaks inside them
    are escaped): splitting the output file at ["\n"] gives back the
    written JSON texts in order, then the empty text after the last
    ["\n"]. *)
Theorem ndjson_output_one_record_per_line : forall file rows,
  let lines := fst (ndjsonFile file rows) in
  (forall l, In l lines -> exists j, l = j ++ [10] /\ ~ In 10 j) /\
  split 10 (List.concat lines) = map (@removelast Z) lines ++ [[]].
Proof.
  intros file rows lines.
  assert (H : forall l, In l lines -> exists j, l = j ++ [10] /\ ~ In 10 j).
  { intros l Hl. destruct (transformLoop_lines _ _ _ _ _ Hl) as [r ->].
    unfold recordLine. eexists. split; [reflexivity | apply jsonObject_no_newline]. }
  split; [exact H | apply split_concat_lines, H].
Qed.

(** ** Reading the NDJSON output back *)


Lemma hexValue_hexDigit : forall n, 0 <= n < 16 -> hexValue (hexDigit n) = Some n.
Proof.
  intros n H. unfold hexDigit, hexValue. destruct (Z.ltb_spec n 10).
  - replace ((48 <=? 48 + n) && (48 + n <=? 57)) with true by (symmetry; zbool; lia).
    f_equal. lia.
  - replace ((48 <=? 87 + n) && (87 + n <=? 57)) with false by (symmetry; zbool; lia).
    replace ((97 <=? 87 + n) && (87 + n <=? 102)) with true by (symmetry; zbool; lia).
    f_equal. lia.
Qed.

Lemma jsonStrBody_hex : forall c rest, 0 <= c < 65536 ->
  jsonStrBody ([92; 117] ++ hex4 c ++ rest)
  = option_map (fun '(x, t) => (c :: x, t)) (jsonStrBody rest).
Proof.
  intros c rest Hc. unfold hex4.
  assert (B : forall n, 0 <= n mod 16 < 16) by (intros n; apply Z.mod_pos_bound; lia).
  pose proof (hexValue_hexDigit _ (B (c / 4096))) as H1.
  pose proof (hexValue_hexDigit _ (B (c / 256))) as H2.
  pose proof (hexValue_hexDigit _ (B (c / 16))) as H3.
  pose proof (hexValue_hexDigit _ (B c)) as H4.
  assert (A : c / 4096 mod 16 * 4096 + c / 256 mod 16 * 256 + c / 16 mod 16 * 16 + c mod 16 = c)
    by (Z.div_mod_to_equations; lia).
  revert H1 H2 H3 H4 A.
  generalize (hexDigit (c / 4096 mod 16)), (hexDigit (c / 256 mod 16)),
             (hexDigit (c / 16 mod 16)), (hexDigit (c mod 16)).
  intros h1 h2 h3 h4 H1 H2 H3 H4 A. simpl. rewrite H1, H2, H3, H4, A. reflexivity.
Qed.

Lemma jsonStrBody_raw : forall c s, 32 <= c -> c <> 34 -> c <> 92 ->
  jsonStrBody (c :: s) = option_map (fun '(d, t) => (c :: d, t)) (jsonStrBody s).
Proof.
  intros c s H1 H2 H3. simpl.
  rewrite (proj2 (Z.eqb_neq c 34) H2), (proj2 (Z.eqb_neq c 92) H3).
  replace (c <? 32) with false by (symmetry; apply Z.ltb_ge; lia). reflexivity.
Qed.

(** Decoding a quoted [JSON.stringify] string gives the string back. *)
Lemma jsonStrBody_quoteBody : forall s rest, nonneg s ->
  jsonStrBody (quoteBody s ++ 34 :: rest) = Some (s, rest).
Proof.
  intros s. remember (List.length s) as n eqn:Hn. revert s Hn.
  induction n as [n IH] using lt_wf_ind. intros [|c r] Hn rest Hs; [reflexivity|].
  simpl in Hn. inversion Hs as [|? ? Hc Hr]; subst.
  assert (IHr : jsonStrBody (quoteBody r ++ 34 :: rest) = Some (r, rest))
    by (apply (IH (List.length r)); [lia|reflexivity|exact Hr]).
  cbn [quoteBody].
  destruct (Z.eqb_spec c 34) as [->|N34]; [simpl; rewrite IHr; reflexivity|].
  destruct (Z.eqb_spec c 92) as [->|N92]; [simpl; rewrite IHr; reflexivity|].
  destruct (Z.eqb_spec c 8) as [->|N8]; [simpl; rewrite IHr; reflexivity|].
  destruct (Z.eqb_spec c 9) as [->|N9]; [simpl; rewrite IHr; reflexivity|].
  destruct (Z.eqb_spec c 10) as [->|N10]; [simpl; rewrite IHr; reflexivity|].
  destruct (Z.eqb_spec c 12) as [->|N12]; [simpl; rewrite IHr; reflexivity|].
  destruct (Z.eqb_spec c 13) as [->|N13]; [simpl; rewrite IHr; reflexivity|].
  destruct (Z.ltb_spec c 32) as [L32|G32].
  { rewrite <- !app_assoc, jsonStrBody_hex by lia. rewrite IHr. reflexivity. }
  destruct (isLeadSurrogate c) eqn:Lead.
  - unfold isLeadSurrogate in Lead. zbool. destruct r as [|d r'].
    + rewrite <- !app_assoc, jsonStrBody_hex by lia. reflexivity.
    + destruct (isTrailSurrogate d) eqn:Trail.
      * unfold isTrailSurrogate in Trail. zbool. inversion Hr as [|? ? Hd Hr']; subst.
        assert (IHr' : jsonStrBody (quoteBody r' ++ 34 :: rest) = Some (r', rest))
          by (apply (IH (List.length r')); [simpl; lia|reflexivity|exact Hr']).
        simpl (_ ++ _). rewrite jsonStrBody_raw by lia. rewrite jsonStrBody_raw by lia.
        rewrite IHr'. reflexivity.
      * rewrite <- !app_assoc, jsonStrBody_hex by lia. rewrite IHr. reflexivity.
  - destruct (isTrailSurrogate c) eqn:Trail.
    + unfold isTrailSurrogate in Trail. zbool.
      rewrite <- !app_assoc, jsonStrBody_hex by lia. rewrite IHr. reflexivity.
    + simpl (_ ++ _). rewrite jsonStrBody_raw by lia. rewrite IHr. reflexivity.
Qed.

Lemma jsonMembers_cons : forall kv es,
  jsonMembers (kv :: es) = memberText kv ++ moreMembersText es.
Proof.
  intros [k v] es. revert k v. induction es as [|[k' v'] es IH]; intros k v.
  - simpl. rewrite app_nil_r. reflexivity.
  - change (jsonMembers ((k, v) :: (k', v') :: es))
      with (jsonString k ++ js ":" ++ jsonString v ++ js "," ++ jsonMembers ((k', v') :: es)).
    rewrite IH. unfold moreMembersText. cbn [flat_map memberText].
    rewrite <- !app_assoc. reflexivity.
Qed.

Lemma moreMembersText_length : forall es, (List.length es <= List.length (moreMembersText es))%nat.
Proof.
  induction es as [|kv es IH]; [simpl; lia|].
  unfold moreMembersText in *. simpl. rewrite length_app. simpl in IH. lia.
Qed.

Lemma jsonStringTok_jsonString : forall s rest, nonneg s ->
  jsonStringTok (jsonString s ++ rest) = Some (s, rest).
Proof.
  intros s rest H. unfold jsonStringTok, jsonString. rewrite <- !app_assoc.
  simpl. apply jsonStrBody_quoteBody, H.
Qed.

Lemma jsonMember_memberText : forall k v rest, nonneg k -> nonneg v ->
  jsonMember (memberText (k, v) ++ rest) = Some ((k, v), rest).
Proof.
  intros k v rest Hk Hv. cbn [memberText]. unfold jsonMember. rewrite <- !app_assoc.
  rewrite jsonStringTok_jsonString by exact Hk.
  remember (jsonString v ++ rest) as t eqn:Et. simpl. subst t.
  rewrite jsonStringTok_jsonString by exact Hv. reflexivity.
Qed.

Lemma jsonMoreMembers_text : forall es fuel rest, entriesNonneg es ->
  (List.length es < fuel)%nat ->
  jsonMoreMembers fuel (moreMembersText es ++ js "}" ++ rest) = Some (es, rest).
Proof.
  induction es as [|[k v] es IH]; intros [|fuel] rest H Hf; simpl in Hf; try lia.
  - reflexivity.
  - inversion H as [|? ? [Hk Hv] Hes]; subst.
    unfold moreMembersText. cbn [flat_map]. fold (moreMembersText es).
    rewrite <- !app_assoc.
    remember (memberText (k, v) ++ moreMembersText es ++ js "}" ++ rest) as t eqn:Et.
    simpl. subst t. rewrite jsonMember_memberText by assumption.
    rewrite IH by (assumption || lia). reflexivity.
Qed.

Lemma memberText_quote : forall kv, exists t, memberText kv = 34 :: t.
Proof. intros [k v]. eexists. reflexivity. Qed.

Lemma jsonParseObject_open_quote : forall t, jsonParseObject (123 :: 34 :: t) =
  match match jsonMember (34 :: t) with
        | Some (kv, r') =>
            option_map (fun '(es, u) => (kv :: es, u)) (jsonMoreMembers (S (S (List.length t))) r')
        | None => None
        end with
  | Some (es, u) => match skipWs u with [] => Some es | _ => None end
  | None => None
  end.
Proof. reflexivity. Qed.

Lemma jsonObject_parses_back : forall es, entriesNonneg es ->
  jsonParseObject (jsonObject es) = Some es.
Proof.
  intros [|[k v] es] H; [reflexivity|].
  inversion H as [|? ? [Hk Hv] Hes]; subst.
  unfold jsonObject. rewrite jsonMembers_cons, <- app_assoc.
  destruct (memberText_quote (k, v)) as [t Ht].
  set (Y := moreMembersText es ++ js "}").
  replace (js "{" ++ memberText (k, v) ++ Y) with (123 :: 34 :: (t ++ Y)) by (rewrite Ht; reflexivity).
  rewrite jsonParseObject_open_quote.
  replace (34 :: t ++ Y) with (memberText (k, v) ++ Y) by (rewrite Ht; reflexivity).
  rewrite jsonMember_memberText by assumption. unfold Y.
  rewrite jsonMoreMembers_text with (rest := []) by
    (assumption || (pose proof (moreMembersText_length es); rewrite !length_app; lia)).
  reflexivity.
Qed.

(** ** Code units stay non-negative *)

Lemma hex4_nonneg : forall c, nonneg (hex4 c).
Proof.
  intros c. unfold hex4.
  assert (B : forall n, 0 <= hexDigit (n mod 16))
    by (intros n; pose proof (hexDigit_ge (n mod 16)); pose proof (Z.mod_pos_bound n 16); lia).
  repeat constructor; apply B.
Qed.

Ltac nonneg_auto :=
  unfold nonneg in *;
  repeat first [ assumption | apply hex4_nonneg | apply Forall_nil
               | apply (proj2 (Forall_app _ _ _)); split | apply Forall_cons | lia ].

Lemma quoteBody_nonneg : forall s, nonneg s -> nonneg (quoteBody s).
Proof.
  intros s. remember (List.length s) as n eqn:Hn. revert s Hn.
  induction n as [n IH] using lt_wf_ind. intros [|c r] Hn Hs; [constructor|].
  simpl in Hn. inversion Hs as [|? ? Hc Hr]; subst.
  assert (IHr : nonneg (quoteBody r)) by (apply (IH (List.length r)); [lia|reflexivity|exact Hr]).
  pose proof (hex4_nonneg c) as Hh.
  cbn [quoteBody].
  destruct (c =? 34); [nonneg_auto|].
  destruct (c =? 92); [nonneg_auto|].
  destruct (c =? 8); [nonneg_auto|].
  destruct (c =? 9); [nonneg_auto|].
  destruct (c =? 10); [nonneg_auto|].
  destruct (c =? 12); [nonneg_auto|].
  destruct (c =? 13); [nonneg_auto|].
  destruct (c <? 32); [nonneg_auto|].
  destruct (isLeadSurrogate c).
  - destruct r as [|d r']; cbv beta iota.
    + nonneg_auto.
    + inversion Hr as [|? ? Hd Hr']; subst.
      destruct (isTrailSurrogate d); [|nonneg_auto].
      assert (IHr' : nonneg (quoteBody r'))
        by (apply (IH (List.length r')); [simpl; lia|reflexivity|exact Hr']).
      nonneg_auto.
  - destruct (isTrailSurrogate c); nonneg_auto.
Qed.

Lemma jsonString_nonneg : forall s, nonneg s -> nonneg (jsonString s).
Proof. intros s H. pose proof (quoteBody_nonneg s H). unfold jsonString. nonneg_auto. Qed.

Lemma memberText_nonneg : forall k v, nonneg k -> nonneg v -> nonneg (memberText (k, v)).
Proof.
  intros k v Hk Hv. pose proof (jsonString_nonneg k Hk). pose proof (jsonString_nonneg v Hv).
  cbn [memberText]. nonneg_auto.
Qed.

Lemma jsonObject_nonneg : forall es, entriesNonneg es -> nonneg (jsonObject es).
Proof.
  intros [|[k v] es] H; [nonneg_auto|].
  inversion H as [|? ? [Hk Hv] Hes]; subst.
  pose proof (memberText_nonneg k v Hk Hv).
  assert (nonneg (moreMembersText es)).
  { unfold moreMembersText, nonneg. apply Forall_flat_map. unfold entriesNonneg in Hes.
    rewrite Forall_forall in *. intros [k' v'] Hin. destruct (Hes _ Hin) as [Hk' Hv'].
    pose proof (memberText_nonneg k' v' Hk' Hv'). nonneg_auto. }
  unfold jsonObject. rewrite jsonMembers_cons. nonneg_auto.
Qed.

Lemma In_trimStart : forall x s, In x (trimStart s) -> In x s.
Proof.
  intros x s. induction s as [|c r IH]; simpl; [tauto|].
  destruct (isWs c); [intros H; right; apply IH, H | tauto].
Qed.

Lemma In_trim : forall x s, In x (trim s) -> In x s.
Proof.
  intros x s H. unfold trim, trimEnd in H. apply in_rev, In_trimStart, in_rev in H.
  apply In_trimStart, H.
Qed.

Lemma In_split0 : forall x c s, In x (split0 c s) -> In x s.
Proof.
  intros x c s. rewrite split0_textBefore. induction s as [|y r IH]; simpl; [tauto|].
  destruct (y =? c); simpl; [tauto|]. intros [E|H]; [left; exact E | right; apply IH, H].
Qed.

Lemma nonneg_sub : forall s t, (forall x, In x t -> In x s) -> nonneg s -> nonneg t.
Proof.
  intros s t Hsub Hs. unfold nonneg in *. rewrite Forall_forall in *. auto.
Qed.

Lemma combineDateTime_nonneg : forall d t, nonneg d -> nonneg t ->
  nonneg (combineDateTime d (Some t)).
Proof.
  intros d t Hd Ht. unfold combineDateTime.
  assert (nonneg (trim (split0 84 d)))
    by (apply (nonneg_sub d); [intros x Hx; apply In_split0 with (c := 84), In_trim, Hx | exact Hd]).
  assert (nonneg (trim (split0 46 t)))
    by (apply (nonneg_sub t); [intros x Hx; apply In_split0 with (c := 46), In_trim, Hx | exact Ht]).
  destruct (truthyStr (Some t) && isValidTime (trim (split0 46 t))); simpl; nonneg_auto.
Qed.

Lemma rowGet_nonneg : forall row k v, entriesNonneg row -> rowGet row k = Some v -> nonneg v.
Proof.
  induction row as [|[k' v'] r IH]; intros k v H; simpl; [discriminate|].
  inversion H as [|? ? [_ Hv'] Hr]; subst.
  destruct (str_eqb k k'); [intros E; inversion E; subst; exact Hv' | apply IH, Hr].
Qed.

Lemma orStr_rowGet_nonneg : forall row k b, entriesNonneg row -> nonneg b ->
  nonneg (orStr (rowGet row k) b).
Proof.
  intros row k b H Hb. destruct (rowGet row k) as [[|x s]|] eqn:E; simpl; try exact Hb.
  apply (rowGet_nonneg row k), E. exact H.
Qed.

Lemma metaEntries_nonneg : forall row, entriesNonneg row -> entriesNonneg (metaEntries row).
Proof.
  intros row H. unfold entriesNonneg, metaEntries in *. rewrite Forall_forall in *.
  intros kv Hin. apply filter_In in Hin. apply H, Hin.
Qed.

Lemma rowGet_filter : forall (p : jsstr * jsstr -> bool) row k,
  (forall v, p (k, v) = true) -> rowGet (filter p row) k = rowGet row k.
Proof.
  intros p row k Hp. induction row as [|[k' v'] r IH]; simpl; [reflexivity|].
  destruct (p (k', v')) eqn:E; simpl.
  - rewrite IH. reflexivity.
  - destruct (str_eqb_spec k k') as [->|N]; [rewrite Hp in E; discriminate | exact IH].
Qed.

Lemma jsonLookup_metaEntries : forall row k, mem k consumedKeys = false ->
  jsonLookup (metaEntries row) k = jsonLookup row k.
Proof.
  intros row k H. unfold jsonLookup, metaEntries. rewrite <- filter_rev.
  apply rowGet_filter. intros v. cbn [fst]. rewrite H. reflexivity.
Qed.

(** ** The geocoding test reading the NDJSON output *)


(** [JSON.parse(JSON.stringify(o))] gives back the members of an object
    whose values are strings, in order. *)
Theorem jsonParse_jsonObject_round_trip : forall es, entriesNonneg es ->
  jsonParseObject (jsonObject es) = Some es.
Proof. exact jsonObject_parses_back. Qed.

(** A line written by the NDJSON [preprocessFile] for a row, read back as
    the geocoding test reads it ([ndjson.parse], then [JSON.parse(row.meta)]),
    gives the record's four fields, then the row's own residual fields; and
    [extractAddress] on them gives the address built from the row's columns. *)
Theorem geocode_reads_ndjson_record : forall n row, entriesNonneg row ->
  exists r, snd (ndjsonBuild n row) = inr r /\
    jsonParseObject (removelast (recordLine r))
      = Some [(js "tipo", tipo r); (js "situacao", situacao r);
              (js "datahora", datahora r); (js "meta", meta r)] /\
    jsonParseObject (meta r) = Some (metaEntries row) /\
    extractAddress (metaEntries row) = extractAddress row.
Proof.
  intros n row H. eexists. split; [reflexivity|]. split; [|split].
  - unfold recordLine. rewrite removelast_last. apply jsonObject_parses_back.
    cbn [tipo situacao datahora meta].
    assert (Hlit : forall s : string, nonneg (js s))
      by (intros s; unfold nonneg; rewrite Forall_forall; intros x Hx;
          unfold js in Hx; apply in_map_iff in Hx; destruct Hx as [a [<- _]]; lia).
    unfold entriesNonneg.
    repeat (apply Forall_cons; [split; cbn [fst snd]; [apply Hlit|]|]); [| | | | apply Forall_nil].
    + repeat apply orStr_rowGet_nonneg; try assumption. constructor.
    + apply orStr_rowGet_nonneg; [assumption | constructor].
    + apply combineDateTime_nonneg; apply orStr_rowGet_nonneg; (assumption || constructor).
    + apply jsonObject_nonneg, metaEntries_nonneg, H.
  - apply jsonObject_parses_back, metaEntries_nonneg, H.
  - unfold extractAddress. rewrite !jsonLookup_metaEntries by reflexivity. reflexivity.
Qed.

Lemma jsonParse_jsonObject_round_trip_witness :
  entriesNonneg [(js "endereco", [34; 92; 10; 55357; 56832; 56320])] /\
  jsonParseObject (jsonObject [(js "endereco", [34; 92; 10; 55357; 56832; 56320])])
  = Some [(js "endereco", [34; 92; 10; 55357; 56832; 56320])].
Proof.
  assert (H : entriesNonneg [(js "endereco", [34; 92; 10; 55357; 56832; 56320])])
    by (unfold entriesNonneg, nonneg; simpl;
        repeat (apply Forall_cons || apply Forall_nil || split); lia).
  split; [exact H | apply jsonParse_jsonObject_round_trip, H].
Defined.

Lemma geocode_reads_ndjson_record_witness :
  entriesNonneg crossingRow /\
  exists r, snd (ndjsonBuild 1 crossingRow) = inr r /\
    jsonParseObject (removelast (recordLine r))
      = Some [(js "tipo", tipo r); (js "situacao", situacao r);
              (js "datahora", datahora r); (js "meta", meta r)] /\
    jsonParseObject (meta r) = Some (metaEntries crossingRow) /\
    extractAddress (metaEntries crossingRow) = extractAddress crossingRow.
Proof.
  assert (H : entriesNonneg crossingRow)
    by (unfold entriesNonneg, nonneg, crossingRow; simpl;
        repeat (apply Forall_cons || apply Forall_nil || split); lia).
  split; [exact H | apply geocode_reads_ndjson_record, H].
Defined.

(** ** Schema-unified mode: header collection and records *)

Lemma StronglySorted_strLt_NoDup : forall l, StronglySorted strLt l -> NoDup l.
Proof.
  intros l Hs. induction Hs as [|a l Hs IH Hf]; constructor; [|exact IH].
  intros Ha. rewrite Forall_forall in Hf. specialize (Hf a Ha).
  unfold strLt in Hf. rewrite strLtb_irrefl in Hf. discriminate.
Qed.

Lemma StronglySorted_strLt_unique : forall l1 l2,
  StronglySorted strLt l1 -> StronglySorted strLt l2 ->
  (forall x, In x l1 <-> In x l2) -> l1 = l2.
Proof.
  induction l1 as [|a l1 IH]; intros [|b l2] H1 H2 Hx.
  - reflexivity.
  - exfalso. apply (Hx b). left. reflexivity.
  - exfalso. apply (Hx a). left. reflexivity.
  - inversion H1 as [|? ? S1 F1]; inversion H2 as [|? ? S2 F2]; subst.
    rewrite Forall_forall in F1, F2.
    assert (Irr : forall x, strLt x x -> False)
      by (intros x Hxx; unfold strLt in Hxx; rewrite strLtb_irrefl in Hxx; discriminate).
    assert (Eab : a = b).
    { destruct (proj1 (Hx a) (or_introl eq_refl)) as [E|Ha]; [congruence|].
      destruct (proj2 (Hx b) (or_introl eq_refl)) as [E|Hb]; [congruence|].
      exfalso. apply (Irr a). apply (strLt_trans a b a); [apply F1, Hb | apply F2, Ha]. }
    subst b. f_equal. apply IH; [exact S1 | exact S2|].
    intros x. split; intros Hin.
    + destruct (proj1 (Hx x) (or_intror Hin)) as [E|H]; [|exact H].
      subst x. exfalso. exact (Irr a (F1 a Hin)).
    + destruct (proj2 (Hx x) (or_intror Hin)) as [E|H]; [|exact H].
      subst x. exfalso. exact (Irr a (F2 a Hin)).
Qed.

Lemma collectLoop_None : forall files acc,
  collectLoop acc files = None <-> exists f, In f files /\ fileHeaders f = None.
Proof.
  induction files as [|f fs IH]; intros acc; simpl.
  - split; [discriminate | intros [g [[] _]]].
  - destruct (fileHeaders f) as [hs|] eqn:E.
    + rewrite IH. split.
      * intros [g [Hg Hn]]. exists g. split; [right; exact Hg | exact Hn].
      * intros [g [[<-|Hg] Hn]]; [congruence|]. exists g. split; assumption.
    + split; [intros _; exists f; split; [left; reflexivity | exact E] | reflexivity].
Qed.

Lemma collectLoop_Some : forall files acc res, NoDup acc ->
  collectLoop acc files = Some res ->
  NoDup res /\ (forall x, In x res <-> In x acc \/
                  exists f hs, In f files /\ fileHeaders f = Some hs /\ In x hs).
Proof.
  induction files as [|f fs IH]; intros acc res Hnd; simpl.
  - intros E. inversion E; subst. split; [exact Hnd|].
    intros x. split; [tauto|]. intros [H|[g [hs [[] _]]]]. exact H.
  - destruct (fileHeaders f) as [hs|] eqn:E; [|discriminate]. intros Hr.
    destruct (fold_setAdd_spec hs acc Hnd) as [Hnd' Hin'].
    destruct (IH _ _ Hnd' Hr) as [Hnr Hir]. split; [exact Hnr|].
    intros x. rewrite Hir, Hin'. split.
    + intros [[H|H]|[g [hs' [Hg [Eg Hx]]]]].
      * left. exact H.
      * right. exists f, hs. split; [left; reflexivity | split; assumption].
      * right. exists g, hs'. split; [right; exact Hg | split; assumption].
    + intros [H|[g [hs' [[<-|Hg] [Eg Hx]]]]].
      * left. left. exact H.
      * left. right. congruence.
      * right. exists g, hs'. split; [exact Hg | split; assumption].
Qed.

Lemma collectUniqueHeaders_NoDup : forall files schema,
  collectUniqueHeaders files = Some schema -> NoDup schema.
Proof.
  intros files schema. unfold collectUniqueHeaders.
  destruct (collectLoop [] files) as [res|] eqn:E; [|discriminate]. simpl.
  intros H. inversion H; subst.
  destruct (collectLoop_Some files [] res (NoDup_nil _) E) as [Hnd _].
  apply StronglySorted_strLt_NoDup, (sortStrings_spec res Hnd).
Qed.

Lemma preprocessRows_total : forall tz schema rows, NoDup schema ->
  Forall strValues rows ->
  snd (preprocessRows tz schema rows) = false /\
  Forall2 (fun row r => preprocessRow tz schema row = Some r) rows (fst (preprocessRows tz schema rows)).
Proof.
  intros tz schema rows Hnd. induction rows as [|row rs IH]; intros Hall; simpl.
  - split; [reflexivity | constructor].
  - inversion Hall as [|? ? Hrow Hrs]; subst.
    destruct (preprocessRow_spec tz schema row Hnd Hrow) as [r [Hr _]]. rewrite Hr.
    destruct (IH Hrs) as [Hf H2].
    destruct (preprocessRows tz schema rs) as [out failed]. simpl in *.
    split; [exact Hf | constructor; assumption].
Qed.

(** With the schema returned by [collectUniqueHeaders] (whatever the
    batch of files it was computed from), [preprocessFile] never stops on
    a row: it writes exactly one record per data row of the file, in row
    order, each the transformation of its row. *)
Theorem preprocessFile_record_per_row : forall files schema tz f,
  collectUniqueHeaders files = Some schema ->
  snd (preprocessFile tz schema f) = false /\
  Forall2 (fun row r => preprocessRow tz schema row = Some r)
    (csvRows (detectSeparator (fileName f)) standardizeHeader (content f))
    (fst (preprocessFile tz schema f)).
Proof.
  intros files schema tz f H. unfold preprocessFile.
  apply preprocessRows_total; [exact (collectUniqueHeaders_NoDup files schema H)|].
  apply Forall_forall. intros row Hrow. exact (strValues_csvRows _ _ _ Hrow).
Qed.

(** [collectUniqueHeaders] does not depend on the order in which the files
    are read: permuting the batch gives the same sorted schema (or, when a
    file has no line, never returns either way). *)
Theorem collectUniqueHeaders_permutation : forall files files',
  Permutation files files' -> collectUniqueHeaders files = collectUniqueHeaders files'.
Proof.
  intros files files' HP. unfold collectUniqueHeaders.
  destruct (collectLoop [] files) as [r1|] eqn:E1;
    destruct (collectLoop [] files') as [r2|] eqn:E2; simpl.
  - f_equal.
    destruct (collectLoop_Some files [] r1 (NoDup_nil _) E1) as [N1 I1].
    destruct (collectLoop_Some files' [] r2 (NoDup_nil _) E2) as [N2 I2].
    destruct (sortStrings_spec r1 N1) as [S1 J1]. destruct (sortStrings_spec r2 N2) as [S2 J2].
    apply StronglySorted_strLt_unique; [exact S1 | exact S2|].
    intros x. rewrite J1, J2, I1, I2. simpl. split.
    + intros [[]|[g [hs [Hg Hx]]]]. right. exists g, hs. split; [|exact Hx].
      eapply Permutation_in; eassumption.
    + intros [[]|[g [hs [Hg Hx]]]]. right. exists g, hs. split; [|exact Hx].
      eapply Permutation_in; [symmetry|]; eassumption.
  - exfalso. apply collectLoop_None in E2. destruct E2 as [g [Hg Hn]].
    assert (N : collectLoop [] files = None).
    { apply collectLoop_None. exists g. split; [|exact Hn].
      eapply Permutation_in; [symmetry|]; eassumption. }
    congruence.
  - exfalso. apply collectLoop_None in E1. destruct E1 as [g [Hg Hn]].
    assert (N : collectLoop [] files' = None).
    { apply collectLoop_None. exists g. split; [|exact Hn].
      eapply Permutation_in; eassumption. }
    congruence.
  - reflexivity.
Qed.

Lemma preprocessFile_record_per_row_witness :
  collectUniqueHeaders [fileA1; fileB1] = Some [js "data"; js "vitimas"] /\
  snd (preprocessFile 0 [js "data"; js "vitimas"] fileB1) = false.
Proof.
  assert (H : collectUniqueHeaders [fileA1; fileB1] = Some [js "data"; js "vitimas"])
    by (vm_compute; reflexivity).
  split; [exact H | exact (proj1 (preprocessFile_record_per_row _ _ 0 fileB1 H))].
Defined.

Lemma collectUniqueHeaders_permutation_witness :
  Permutation [fileA1; fileB1] [fileB1; fileA1] /\
  collectUniqueHeaders [fileA1; fileB1] = collectUniqueHeaders [fileB1; fileA1].
Proof.
  assert (H : Permutation [fileA1; fileB1] [fileB1; fileA1]) by apply perm_swap.
  split; [exact H | exact (collectUniqueHeaders_permutation _ _ H)].
Defined.

(** ** [extractAddress] with missing fields *)

Lemma trimStart_snoc_nonws : forall l c, isWs c = false ->
  exists u, trimStart (l ++ [c]) = u ++ [c].
Proof.
  induction l as [|x l IH]; intros c Hc; simpl.
  - exists []. rewrite Hc. reflexivity.
  - destruct (isWs x); [apply IH, Hc|]. exists (x :: l). reflexivity.
Qed.

Lemma trim_comma_head : forall r, exists t, trim (44 :: r) = 44 :: t.
Proof.
  intros r. unfold trim, trimEnd. cbn [trimStart]. replace (isWs 44) with false by reflexivity.
  cbn [rev]. destruct (trimStart_snoc_nonws (rev r) 44 eq_refl) as [u Hu].
  rewrite Hu, rev_app_distr. exists (rev u). reflexivity.
Qed.

(** When the metadata has no (or an empty) [endereco], the address sent
    to the geocoder starts with a comma; when it has [endereco] and
    [numero] but no [bairro], it ends with the text [undefined]. *)
Theorem extractAddress_missing_fields : forall meta,
  (truthyStr (jsonLookup meta (js "endereco")) = false ->
     exists t, extractAddress meta = 44 :: t) /\
  (truthyStr (jsonLookup meta (js "endereco")) = true ->
   truthyStr (jsonLookup meta (js "numero")) = true ->
   jsonLookup meta (js "bairro") = None ->
     exists p, extractAddress meta = p ++ js "undefined").
Proof.
  intros meta. split.
  - intros He. unfold extractAddress. rewrite He. cbn [andb].
    destruct (jsonLookup meta (js "endereco")) as [[|x e]|]; try discriminate; apply trim_comma_head.
  - intros He Hn Hb. unfold extractAddress. rewrite He, Hn, Hb. cbn [andb].
    exists (tmplStr (jsonLookup meta (js "endereco")) ++ js ", " ++
            tmplStr (jsonLookup meta (js "numero")) ++ js ", ").
    rewrite <- !app_assoc. reflexivity.
Qed.

Lemma extractAddress_missing_fields_witness :
  (truthyStr (jsonLookup [(js "bairro", js "Boa Vista")] (js "endereco")) = false /\
   exists t, extractAddress [(js "bairro", js "Boa Vista")] = 44 :: t) /\
  (truthyStr (jsonLookup [(js "endereco", js "Rua A"); (js "numero", js "7")] (js "endereco")) = true /\
   truthyStr (jsonLookup [(js "endereco", js "Rua A"); (js "numero", js "7")] (js "numero")) = true /\
   jsonLookup [(js "endereco", js "Rua A"); (js "numero", js "7")] (js "bairro") = None /\
   exists p, extractAddress [(js "endereco", js "Rua A"); (js "numero", js "7")] = p ++ js "undefined").
Proof.
  split.
  - split; [reflexivity|]. apply (extractAddress_missing_fields _). reflexivity.
  - split; [reflexivity|]. split; [reflexivity|]. split; [reflexivity|].
    apply (extractAddress_missing_fields _); reflexivity.
Defined.

(** ** The ETL runner of [index.ts] *)







